(** * NYC subway tracker: sessions, visit marks and the client toggle

    A shallow embedding of the server (server.js, lib/auth.js, lib/db.js)
    and of the client's [toggleStation] (app.js), with the properties of
    the visit-mark API, the authentication gate and the toggle loop.

    The relational store is modelled as lists of rows in rowid order; each
    SQL statement of the source is one function on the store.  The clock is
    an explicit input [now] (milliseconds since the epoch, as [Date.now()]
    reads it; SQLite reads the same clock at one-second resolution).
    [Math.random] is an explicit stream of draws. *)

From Stdlib Require Import ZArith List String Ascii Bool Lia QArith Qround.
From Stdlib Require Import Sorting.Sorted Sorting.Permutation.
Import ListNotations.

Local Open Scope string_scope.
Local Open Scope Z_scope.

(** ** Platform primitives used by the source *)

Module Platform.

(** [String.prototype.toLowerCase], on the ASCII letters: bytes outside
    [A-Z] are left as they are. *)
Definition lower_ascii (c : ascii) : ascii :=
  let n := N_of_ascii c in
  if ((65 <=? n) && (n <=? 90))%N then ascii_of_N (n + 32) else c.

Fixpoint toLowerCase (s : string) : string :=
  match s with
  | EmptyString => EmptyString
  | String c r => String (lower_ascii c) (toLowerCase r)
  end.

(** Number.prototype.toString(16) for one digit. *)
Definition hex_digit (d : Z) : ascii :=
  match d with
  | 0 => "0" | 1 => "1" | 2 => "2" | 3 => "3" | 4 => "4" | 5 => "5"
  | 6 => "6" | 7 => "7" | 8 => "8" | 9 => "9" | 10 => "a" | 11 => "b"
  | 12 => "c" | 13 => "d" | 14 => "e" | _ => "f"
  end%char.

(** [b.toString(16).padStart(2, '0')] for a byte [0 <= b < 256]. *)
Definition hex2 (b : Z) : string :=
  String (hex_digit (b / 16)) (String (hex_digit (b mod 16)) EmptyString).

(** [bytes.map(hex2).join('')]. *)
Fixpoint hex_join (bs : list Z) : string :=
  match bs with
  | [] => EmptyString
  | b :: r => hex2 b ++ hex_join r
  end.

Definition dec_digit (d : Z) : ascii := ascii_of_N (48 + Z.to_N (d mod 10)).

(** Decimal fields of fixed width, zero padded. *)
Definition pad2 (n : Z) : string :=
  String (dec_digit (n / 10)) (String (dec_digit n) EmptyString).
Definition pad3 (n : Z) : string :=
  String (dec_digit (n / 100)) (pad2 n).
Definition pad4 (n : Z) : string :=
  String (dec_digit (n / 1000)) (pad3 n).

(** Proleptic Gregorian date of a day count since 1970-01-01. *)
Definition civil_from_days (days : Z) : Z * Z * Z :=
  let z := days + 719468 in
  let era := z / 146097 in
  let doe := z - era * 146097 in
  let yoe := (doe - doe / 1460 + doe / 36524 - doe / 146096) / 365 in
  let doy := doe - (365 * yoe + yoe / 4 - yoe / 100) in
  let mp := (5 * doy + 2) / 153 in
  let d := doy - (153 * mp + 2) / 5 + 1 in
  let m := if mp <? 10 then mp + 3 else mp - 9 in
  let y := yoe + era * 400 in
  (if m <=? 2 then y + 1 else y, m, d).

Definition ms_per_day : Z := 86400000.

Definition date_part (ms : Z) : string :=
  let '(y, m, d) := civil_from_days (ms / ms_per_day) in
  pad4 y ++ "-" ++ pad2 m ++ "-" ++ pad2 d.

Definition time_part (ms : Z) : string :=
  let s := (ms mod ms_per_day) / 1000 in
  pad2 (s / 3600) ++ ":" ++ pad2 ((s / 60) mod 60) ++ ":" ++ pad2 (s mod 60).

(** [new Date(ms).toISOString()]: [YYYY-MM-DDTHH:MM:SS.mmmZ]
    (years 0000 to 9999). *)
Definition toISOString (ms : Z) : string :=
  date_part ms ++ "T" ++ time_part ms ++ "." ++ pad3 (ms mod 1000) ++ "Z".

(** SQLite's [datetime('now')] and [CURRENT_TIMESTAMP] when the clock reads
    [ms]: the text [YYYY-MM-DD HH:MM:SS] in UTC. *)
Definition sqlite_datetime (ms : Z) : string :=
  date_part ms ++ " " ++ time_part ms.

(** Comparison of two TEXT values under SQLite's BINARY collation is
    bytewise lexicographic, which is [String.compare]. *)
Definition text_ltb (a b : string) : bool := String.ltb a b.
Definition text_leb (a b : string) : bool := String.leb a b.

(** [Math.random]: the stream of the draws to come, each a rational in
    [0, 1), and the number of draws consumed so far. *)
Record Rng := mkRng { draws : nat -> Q; cursor : nat }.

Definition Math_random (g : Rng) : Q * Rng :=
  (draws g (cursor g), mkRng (draws g) (S (cursor g))).

(** [Math.floor(q * 256)] stored into a [Uint8Array] cell (modulo 256). *)
Definition random_byte (q : Q) : Z := Qfloor (q * 256) mod 256.

End Platform.

Import Platform.

(** ** The relational store (lib/db.js) *)

Module Db.

(** Rows of the three tables of [initSchema].  The [created_at] columns of
    [users] and [sessions] are never read by the source and are left out. *)
Record User := mkUser { user_id : Z; username : string; pin : string }.

Record Session := mkSession
  { session_id : string; session_user_id : Z; expires_at : string }.

Record Visit := mkVisit
  { visit_id : Z; visit_user_id : Z; station_id : string;
    visited_at : string }.

(** Each table is the list of its rows in rowid order.  The two
    [AUTOINCREMENT] tables carry the largest rowid handed out so far
    (SQLite's [sqlite_sequence]). *)
Record Store := mkStore
  { users : list User; users_seq : Z;
    sessions : list Session;
    visited_stations : list Visit; visited_seq : Z }.

Inductive SqlError :=
| SQLITE_CONSTRAINT_UNIQUE
| SQLITE_CONSTRAINT_PRIMARYKEY
| SQLITE_CONSTRAINT_FOREIGNKEY.

(** A statement either runs or raises; a statement that raises leaves the
    store as it was. *)
Inductive result (A : Type) :=
| Done (a : A)
| Raised (e : SqlError).
Arguments Done {A} a.
Arguments Raised {A} e.

(** The rowid an [AUTOINCREMENT] table gives to a new row. *)
Definition next_rowid (seq : Z) (ids : list Z) : Z :=
  Z.max seq (fold_right Z.max 0 ids) + 1.

Definition user_exists (st : Store) (uid : Z) : bool :=
  existsb (fun u => user_id u =? uid) (users st).

(** [INSERT INTO users (username, pin) VALUES (?, ?)], returning
    [lastInsertRowid].  [username] is [UNIQUE]. *)
Definition insert_user (st : Store) (name p : string) : result (Z * Store) :=
  if existsb (fun u => String.eqb (username u) name) (users st)
  then Raised SQLITE_CONSTRAINT_UNIQUE
  else
    let id := next_rowid (users_seq st) (map user_id (users st)) in
    Done (id, mkStore (users st ++ [mkUser id name p])%list id
                      (sessions st) (visited_stations st) (visited_seq st)).

(** [SELECT * FROM users WHERE username = ? AND pin = ?], first row. *)
Definition select_user_by_credentials (st : Store) (name p : string)
  : option User :=
  find (fun u => String.eqb (username u) name && String.eqb (pin u) p)
       (users st).

(** [SELECT * FROM users WHERE username = ?], first row. *)
Definition select_user_by_username (st : Store) (name : string)
  : option User :=
  find (fun u => String.eqb (username u) name) (users st).

(** [INSERT INTO sessions (id, user_id, expires_at) VALUES (?, ?, ?)]:
    [id] is the primary key and [user_id] references [users(id)] with
    foreign keys switched on. *)
Definition insert_session (st : Store) (sid : string) (uid : Z)
           (expires : string) : result Store :=
  if existsb (fun s => String.eqb (session_id s) sid) (sessions st)
  then Raised SQLITE_CONSTRAINT_PRIMARYKEY
  else if user_exists st uid
  then Done (mkStore (users st) (users_seq st)
                     (sessions st ++ [mkSession sid uid expires])%list
                     (visited_stations st) (visited_seq st))
  else Raised SQLITE_CONSTRAINT_FOREIGNKEY.

(** [SELECT u.id, u.username FROM sessions s JOIN users u
     ON s.user_id = u.id
     WHERE s.id = ? AND s.expires_at > datetime('now')].
    Both sides of [>] are TEXT, so the comparison is the lexicographic
    one. *)
Definition select_session_user (st : Store) (now : Z) (sid : string)
  : list (Z * string) :=
  flat_map
    (fun s =>
       if String.eqb (session_id s) sid
          && text_ltb (sqlite_datetime now) (expires_at s)
       then map (fun u => (user_id u, username u))
                (filter (fun u => session_user_id s =? user_id u) (users st))
       else [])
    (sessions st).

(** [DELETE FROM sessions WHERE id = ?]. *)
Definition delete_session (st : Store) (sid : string) : Store :=
  mkStore (users st) (users_seq st)
          (filter (fun s => negb (String.eqb (session_id s) sid))
                  (sessions st))
          (visited_stations st) (visited_seq st).

(** Insertion into a list sorted by [leb], after the elements that are not
    larger: the sort built on it is stable. *)
Fixpoint insert_sorted {A : Type} (leb : A -> A -> bool) (x : A)
         (l : list A) : list A :=
  match l with
  | [] => [x]
  | y :: r => if leb y x then y :: insert_sorted leb x r else x :: y :: r
  end.

Definition stable_sort {A : Type} (leb : A -> A -> bool) (l : list A)
  : list A :=
  fold_left (fun acc x => insert_sorted leb x acc) l [].

Definition owned_by (uid : Z) (v : Visit) : bool := visit_user_id v =? uid.

(** The rows of one user as the engine visits them: through the index of
    [UNIQUE(user_id, station_id)], hence by ascending [station_id]. *)
Definition index_scan (st : Store) (uid : Z) : list Visit :=
  stable_sort (fun a b => text_leb (station_id a) (station_id b))
              (filter (owned_by uid) (visited_stations st)).

(** [ORDER BY visited_at]: the sorter keeps rows with equal keys in the
    order in which the scan delivers them. *)
Definition order_by_visited_at (rows : list Visit) : list Visit :=
  stable_sort (fun a b => text_leb (visited_at a) (visited_at b)) rows.

(** [SELECT station_id FROM visited_stations WHERE user_id = ?
     ORDER BY visited_at]. *)
Definition select_visited (st : Store) (uid : Z) : list Visit :=
  order_by_visited_at (index_scan st uid).

Definition same_mark (uid : Z) (sid : string) (v : Visit) : bool :=
  (visit_user_id v =? uid) && String.eqb (station_id v) sid.

(** [INSERT OR REPLACE INTO visited_stations (user_id, station_id)
     VALUES (?, ?)]: the row in conflict on [UNIQUE(user_id, station_id)]
    is deleted, and a new row is added with a fresh rowid and
    [visited_at = CURRENT_TIMESTAMP]. *)
Definition insert_or_replace_visited (st : Store) (now : Z) (uid : Z)
           (sid : string) : result Store :=
  if user_exists st uid
  then
    let id := next_rowid (visited_seq st)
                         (map visit_id (visited_stations st)) in
    Done (mkStore (users st) (users_seq st) (sessions st)
                  (filter (fun v => negb (same_mark uid sid v))
                          (visited_stations st)
                   ++ [mkVisit id uid sid (sqlite_datetime now)])%list
                  id)
  else Raised SQLITE_CONSTRAINT_FOREIGNKEY.

(** [DELETE FROM visited_stations WHERE user_id = ? AND station_id = ?],
    with the number of rows deleted ([changes]). *)
Definition delete_visited (st : Store) (uid : Z) (sid : string)
  : Z * Store :=
  (Z.of_nat (List.length (filter (same_mark uid sid) (visited_stations st))),
   mkStore (users st) (users_seq st) (sessions st)
           (filter (fun v => negb (same_mark uid sid v))
                   (visited_stations st))
           (visited_seq st)).

(** [DELETE FROM visited_stations WHERE user_id = ?], with [changes]. *)
Definition delete_all_visited (st : Store) (uid : Z) : Z * Store :=
  (Z.of_nat (List.length (filter (owned_by uid) (visited_stations st))),
   mkStore (users st) (users_seq st) (sessions st)
           (filter (fun v => negb (owned_by uid v)) (visited_stations st))
           (visited_seq st)).

(** The store [initSchema] leaves on a fresh install: the three tables,
    with the default account in [users]. *)
Definition fresh_install : Store :=
  mkStore [mkUser 1 "kartikye" "4569"] 1 [] [] 0.

End Db.

Import Db.

(** ** Sessions and users (lib/auth.js) *)

Module Auth.

(** The loop of [generateSessionId]: [n] draws of [Math.random], each
    turned into a byte. *)
Fixpoint random_bytes (n : nat) (g : Rng) : list Z * Rng :=
  match n with
  | O => ([], g)
  | S k =>
      let '(q, g1) := Math_random g in
      let '(bs, g2) := random_bytes k g1 in
      (random_byte q :: bs, g2)
  end.

Definition generateSessionId (g : Rng) : string * Rng :=
  let '(bs, g') := random_bytes 24 g in (hex_join bs, g').

(** Session duration: 30 days, in milliseconds. *)
Definition SESSION_MAX_AGE : Z := 30 * 24 * 60 * 60 * 1000.

(** What a JavaScript call gives back: a value or an exception. *)
Inductive completion (A : Type) :=
| Returns (a : A)
| Throws (e : SqlError).
Arguments Returns {A} a.
Arguments Throws {A} e.

(** [createUser]: [None] is the source's [null] (username taken). *)
Definition createUser (st : Store) (name p : string)
  : completion (option (Z * string)) * Store :=
  match insert_user st (toLowerCase name) p with
  | Done (id, st') => (Returns (Some (id, toLowerCase name)), st')
  | Raised SQLITE_CONSTRAINT_UNIQUE => (Returns None, st)
  | Raised e => (Throws e, st)
  end.

Definition verifyUser (st : Store) (name p : string) : option User :=
  select_user_by_credentials st (toLowerCase name) p.

Definition getUserByUsername (st : Store) (name : string) : option User :=
  select_user_by_username st (toLowerCase name).

Definition createSession (st : Store) (now : Z) (g : Rng) (userId : Z)
  : completion string * Store * Rng :=
  let '(sessionId, g') := generateSessionId g in
  let expiresAt := toISOString (now + SESSION_MAX_AGE) in
  match insert_session st sessionId userId expiresAt with
  | Done st' => (Returns sessionId, st', g')
  | Raised e => (Throws e, st, g')
  end.

(** JavaScript truthiness of a value that is a string or missing: [!v]
    holds when [v] is missing or the empty string. *)
Definition truthy (v : option string) : option string :=
  match v with
  | None => None
  | Some s => if String.eqb s "" then None else Some s
  end.

Definition getUserFromSession (st : Store) (now : Z)
           (sessionId : option string) : option (Z * string) :=
  match truthy sessionId with
  | None => None
  | Some sid => hd_error (select_session_user st now sid)
  end.

Definition deleteSession (st : Store) (sessionId : string) : Store :=
  delete_session st sessionId.

End Auth.

Import Auth.

(** ** The HTTP layer (server.js) *)

Module Server.

Inductive Json :=
| JError (msg : string)
| JUser (id : Z) (name : string)
| JAuthSuccess (id : Z) (name : string)
| JExists (b : bool)
| JSuccess
| JStationIds (ids : list string)
| JMarked (stationId : string)
| JUnmarked (stationId : string) (deleted : bool)
| JCleared (deletedCount : Z)
| JUncaught (e : SqlError).

Inductive CookieAction :=
| NoCookie
| SetSessionCookie (sessionId : string) (maxAge : Z)
| ClearSessionCookie.

Record Response := mkResponse
  { status : Z; body : Json; cookie : CookieAction }.

Definition json (code : Z) (b : Json) : Response := mkResponse code b NoCookie.

(** The routes of server.js.  A body field is [None] when it is missing. *)
Inductive Route :=
| GET_auth_me
| POST_auth_register (username pin : option string)
| POST_auth_login (username pin : option string)
| GET_auth_check (username : string)
| POST_auth_logout
| GET_api_visited
| POST_api_visited (stationId : string)
| DELETE_api_visited_station (stationId : string)
| DELETE_api_visited.

Record Request := mkRequest { session_cookie : option string; route : Route }.

(** The routes registered with [requireAuth]. *)
Definition protected (r : Route) : bool :=
  match r with
  | GET_api_visited | POST_api_visited _
  | DELETE_api_visited_station _ | DELETE_api_visited => true
  | _ => false
  end.

(** What the server keeps between requests. *)
Definition World : Type := Store * Rng.

(** [/^\d{4,6}$/.test(pin)]. *)
Definition is_digit (c : ascii) : bool :=
  let n := N_of_ascii c in ((48 <=? n) && (n <=? 57))%N.

Definition pin_ok (p : string) : bool :=
  let cs := list_ascii_of_string p in
  (4 <=? List.length cs)%nat && (List.length cs <=? 6)%nat
  && forallb is_digit cs.

(** [authMiddleware]: the user put on [req.user]. *)
Definition authMiddleware (st : Store) (now : Z) (req : Request)
  : option (Z * string) :=
  getUserFromSession st now (session_cookie req).

Definition unauthenticated : Response :=
  json 401 (JError "Authentication required").

(** [requireAuth]: without [req.user] the chain stops with a 401;
    otherwise [next] runs with the user's id. *)
Definition requireAuth (user : option (Z * string)) (w : World)
           (next : Z -> Response * World) : Response * World :=
  match user with
  | None => (unauthenticated, w)
  | Some (uid, _) => next uid
  end.

(** The tail shared by register and login: open a session, set the cookie,
    answer with the public identity. *)
Definition open_session (st : Store) (now : Z) (g : Rng)
           (user : Z * string) : Response * World :=
  match createSession st now g (fst user) with
  | (Returns sessionId, st', g') =>
      (mkResponse 200 (JAuthSuccess (fst user) (snd user))
                  (SetSessionCookie sessionId SESSION_MAX_AGE), (st', g'))
  | (Throws e, st', g') => (json 500 (JUncaught e), (st', g'))
  end.

Definition register (st : Store) (now : Z) (g : Rng)
           (uname p : option string) : Response * World :=
  match truthy uname, truthy p with
  | Some name, Some p =>
      if ((String.length name <? 3) || (20 <? String.length name))%nat
      then (json 400 (JError "Username must be 3-20 characters"), (st, g))
      else if negb (pin_ok p)
      then (json 400 (JError "PIN must be 4-6 digits"), (st, g))
      else
        match createUser st name p with
        | (Returns None, st') =>
            (json 400 (JError "Username already taken"), (st', g))
        | (Returns (Some user), st') => open_session st' now g user
        | (Throws e, st') => (json 500 (JUncaught e), (st', g))
        end
  | _, _ => (json 400 (JError "Username and PIN required"), (st, g))
  end.

Definition login (st : Store) (now : Z) (g : Rng)
           (uname p : option string) : Response * World :=
  match truthy uname, truthy p with
  | Some name, Some p =>
      match verifyUser st name p with
      | None => (json 401 (JError "Invalid username or PIN"), (st, g))
      | Some u => open_session st now g (user_id u, Db.username u)
      end
  | _, _ => (json 400 (JError "Username and PIN required"), (st, g))
  end.

(** The four handlers behind [requireAuth], given [req.user.id]. *)
Definition get_visited (st : Store) (uid : Z) : Response * Store :=
  (json 200 (JStationIds (map station_id (select_visited st uid))), st).

Definition post_visited (st : Store) (now : Z) (uid : Z) (stationId : string)
  : Response * Store :=
  match insert_or_replace_visited st now uid stationId with
  | Done st' => (json 200 (JMarked stationId), st')
  | Raised _ => (json 500 (JError "Failed to mark station as visited"), st)
  end.

Definition delete_visited_station (st : Store) (uid : Z)
           (stationId : string) : Response * Store :=
  let '(changes, st') := delete_visited st uid stationId in
  (json 200 (JUnmarked stationId (0 <? changes)), st').

Definition delete_visited_all (st : Store) (uid : Z) : Response * Store :=
  let '(changes, st') := delete_all_visited st uid in
  (json 200 (JCleared changes), st').

(** One request through the middleware chain and its route. *)
Definition handle (now : Z) (req : Request) (w : World) : Response * World :=
  let '(st, g) := w in
  let user := authMiddleware st now req in
  match route req with
  | GET_auth_me =>
      match user with
      | Some (id, name) => (json 200 (JUser id name), w)
      | None => (json 401 (JError "Not authenticated"), w)
      end
  | POST_auth_register uname p => register st now g uname p
  | POST_auth_login uname p => login st now g uname p
  | GET_auth_check name =>
      (json 200 (JExists (match getUserByUsername st name with
                          | Some _ => true
                          | None => false
                          end)), w)
  | POST_auth_logout =>
      let st' := match truthy (session_cookie req) with
                 | Some sid => deleteSession st sid
                 | None => st
                 end in
      (mkResponse 200 JSuccess ClearSessionCookie, (st', g))
  | GET_api_visited =>
      requireAuth user w (fun uid =>
        let '(r, st') := get_visited st uid in (r, (st', g)))
  | POST_api_visited stationId =>
      requireAuth user w (fun uid =>
        let '(r, st') := post_visited st now uid stationId in (r, (st', g)))
  | DELETE_api_visited_station stationId =>
      requireAuth user w (fun uid =>
        let '(r, st') := delete_visited_station st uid stationId in
        (r, (st', g)))
  | DELETE_api_visited =>
      requireAuth user w (fun uid =>
        let '(r, st') := delete_visited_all st uid in (r, (st', g)))
  end.

(** A run of requests, each served at its own clock reading. *)
Fixpoint serve (reqs : list (Z * Request)) (w : World)
  : list Response * World :=
  match reqs with
  | [] => ([], w)
  | (now, req) :: rest =>
      let '(r, w1) := handle now req w in
      let '(rs, w2) := serve rest w1 in
      (r :: rs, w2)
  end.

End Server.

Import Server.

(** ** The client's toggle (app.js) *)

Module Client.

Inductive Method := POST | DELETE.

(** How one [fetch] ends: a response with [ok], a response without, or a
    rejected promise. *)
Inductive FetchResult := ResponseOk | ResponseNotOk | NetworkError.

Record Call := mkCall
  { call_method : Method; call_station : string; call_result : FetchResult }.

(** [Array.prototype.includes] and [indexOf] on the mirror. *)
Definition includes (l : list string) (x : string) : bool :=
  existsb (String.eqb x) l.

Fixpoint indexOf (l : list string) (x : string) : Z :=
  match l with
  | [] => -1
  | y :: r =>
      if String.eqb y x then 0
      else let i := indexOf r x in if i <? 0 then -1 else i + 1
  end.

(** [l.splice(start, 1)]: a negative [start] counts from the end. *)
Definition splice1 (l : list string) (start : Z) : list string :=
  let len := Z.of_nat (List.length l) in
  let s := if start <? 0 then Z.max (len + start) 0 else Z.min start len in
  (firstn (Z.to_nat s) l ++ skipn (S (Z.to_nat s)) l)%list.

(** What one run of [toggleStation] leaves behind: the mirror, the calls
    it issued in order, and whether it reached the code after the loop
    (markers, list and statistics refreshed) rather than the [catch]. *)
Record Outcome := mkOutcome
  { visitedStations : list string; calls : list Call; refreshed : bool }.

Definition issued (c : Call) (o : Outcome) : Outcome :=
  mkOutcome (visitedStations o) (c :: calls o) (refreshed o).

(** The two loops.  [net k] is how the [k]-th fetch of the run ends. *)
Fixpoint unmark_loop (net : nat -> FetchResult) (k : nat)
         (ids : list string) (visited : list string) : Outcome :=
  match ids with
  | [] => mkOutcome visited [] true
  | id :: rest =>
      if -1 <? indexOf visited id
      then
        match net k with
        | NetworkError =>
            mkOutcome visited [mkCall DELETE id NetworkError] false
        | ResponseOk =>
            issued (mkCall DELETE id ResponseOk)
                   (unmark_loop net (S k) rest
                                (splice1 visited (indexOf visited id)))
        | ResponseNotOk =>
            issued (mkCall DELETE id ResponseNotOk)
                   (unmark_loop net (S k) rest visited)
        end
      else unmark_loop net k rest visited
  end.

Fixpoint mark_loop (net : nat -> FetchResult) (k : nat)
         (ids : list string) (visited : list string) : Outcome :=
  match ids with
  | [] => mkOutcome visited [] true
  | id :: rest =>
      if negb (includes visited id)
      then
        match net k with
        | NetworkError =>
            mkOutcome visited [mkCall POST id NetworkError] false
        | ResponseOk =>
            issued (mkCall POST id ResponseOk)
                   (mark_loop net (S k) rest (visited ++ [id])%list)
        | ResponseNotOk =>
            issued (mkCall POST id ResponseNotOk)
                   (mark_loop net (S k) rest visited)
        end
      else mark_loop net k rest visited
  end.

(** [toggleStation]; [getComplexStations] is [None] when the page defines
    no such function. *)
Definition toggleStation (getComplexStations : option (string -> list string))
           (net : nat -> FetchResult) (visited : list string)
           (stationId : string) : Outcome :=
  let complexStations :=
    match getComplexStations with
    | Some f => f stationId
    | None => [stationId]
    end in
  let isCurrentlyVisited := includes visited stationId in
  if isCurrentlyVisited
  then unmark_loop net 0 complexStations visited
  else mark_loop net 0 complexStations visited.

End Client.

Import Client.

(** ** Vocabulary of the statements *)

(** The visit marks of one user, in table order. *)
Definition rows_of (st : Store) (uid : Z) : list Visit :=
  filter (owned_by uid) (visited_stations st).

(** The array that [GET /api/visited] sends for user [uid]. *)
Definition visited_ids (st : Store) (uid : Z) : list string :=
  map station_id (select_visited st uid).

(** The columns of a mark that the queries of the source read: all but the
    surrogate rowid. *)
Definition columns (v : Visit) : Z * string * string :=
  (visit_user_id v, station_id v, visited_at v).

(** The marks table as the API can observe it. *)
Definition api_view (st : Store) : list (Z * string * string) :=
  map columns (visited_stations st).

Definition mark_of (v : Visit) : Z * string := (visit_user_id v, station_id v).

(** The constraint [UNIQUE(user_id, station_id)]. *)
Definition marks_unique (st : Store) : Prop :=
  NoDup (map mark_of (visited_stations st)).

Definition marked (st : Store) (uid : Z) (sid : string) : Prop :=
  exists v, In v (visited_stations st) /\ visit_user_id v = uid
            /\ station_id v = sid.

(** The marks table after [INSERT OR REPLACE] has given rowid [id] to the
    new row. *)
Definition upsert_rows (rows : list Visit) (id : Z) (now : Z) (uid : Z)
           (s : string) : list Visit :=
  (filter (fun v => negb (same_mark uid s v)) rows
   ++ [mkVisit id uid s (sqlite_datetime now)])%list.

(** The token of a run of [generateSessionId]: the next 24 draws of
    [Math.random], one byte each, in hexadecimal. *)
Definition token_of (g : Rng) : string :=
  hex_join (map (fun i => random_byte (draws g (cursor g + i)%nat)) (seq 0 24)).

(** Reading two hexadecimal digits back. *)
Definition hex_value (c : ascii) : Z :=
  let n := Z.of_N (N_of_ascii c) in
  if n <? 58 then n - 48 else n - 87.

Definition unhex2 (s : string) : Z :=
  match s with
  | String a (String b _) => 16 * hex_value a + hex_value b
  | _ => 0
  end.







(** Whether a name is taken in [users]. *)
Definition name_taken (st : Store) (name : string) : bool :=
  existsb (fun u => String.eqb (Db.username u) name) (users st).

(** A request to a protected route whose cookie resolves to user [u] when
    it is served. *)
Definition by_user (st : Store) (u : Z) (nr : Z * Request) : Prop :=
  protected (route (snd nr)) = true /\
  exists name,
    getUserFromSession st (fst nr) (session_cookie (snd nr)) = Some (u, name).

Definition visited_leb (a b : Visit) : bool :=
  text_leb (visited_at a) (visited_at b).

Definition station_leb (a b : Visit) : bool :=
  text_leb (station_id a) (station_id b).

(** ** A small deployment, for the examples

    Two accounts registered on a fresh install at 2026-01-01T00:00:00Z. *)

Module Scenario.

Definition rng0 : Rng :=
  mkRng (fun n => Qmake ((Z.of_nat (37 * n + 11) mod 256) * 7 + 3) 1792) 0.

Definition t0 : Z := 1767225600000.

Definition session_of (r : Response) : option string :=
  match cookie r with
  | SetSessionCookie sid _ => Some sid
  | _ => None
  end.

Definition alice_registered : Response * World :=
  Eval vm_compute in
  handle t0 (mkRequest None (POST_auth_register (Some "Alice") (Some "1234")))
         (fresh_install, rng0).

Definition alice_cookie : option string :=
  Eval vm_compute in session_of (fst alice_registered).

Definition bob_registered : Response * World :=
  Eval vm_compute in
  handle t0 (mkRequest None (POST_auth_register (Some "bob") (Some "987654")))
         (snd alice_registered).

Definition bob_cookie : option string :=
  Eval vm_compute in session_of (fst bob_registered).

Definition world0 : World := Eval vm_compute in snd bob_registered.
Definition store0 : Store := Eval vm_compute in fst world0.

Definition as_alice (r : Route) : Request := mkRequest alice_cookie r.
Definition as_bob (r : Route) : Request := mkRequest bob_cookie r.

Definition hour : Z := 3600000.
Definition day : Z := 24 * hour.

(** Alice marks two stations of one complex within the same second, as the
    client's toggle does; Bob marks one of them later. *)
Definition world1 : World :=
  Eval vm_compute in
  snd (serve [(t0 + 1000, as_alice (POST_api_visited "B02"));
              (t0 + 1200, as_alice (POST_api_visited "A01"));
              (t0 + 5000, as_bob (POST_api_visited "A01"))]
             world0).
Definition store1 : Store := Eval vm_compute in fst world1.

End Scenario.

(** ** Schema initialisation (lib/db.js, [initSchema]) *)

Module Schema.

(** What [PRAGMA table_info(visited_stations)] finds at start-up: no table,
    the single-user table without [user_id] (its rows as [station_id] and
    [visited_at], the latter possibly NULL), or the current table, whose
    rows are those of the store. *)
Inductive VisitedTable :=
| Absent
| Legacy (rows : list (string * option string))
| Current.

Record Database := mkDatabase { tables : Store; visited_table : VisitedTable }.

(** [INSERT INTO visited_stations (user_id, station_id, visited_at)
     VALUES (?, ?, ?)]. *)
Definition insert_visited (st : Store) (uid : Z) (sid stamp : string)
  : result Store :=
  if existsb (same_mark uid sid) (visited_stations st)
  then Raised SQLITE_CONSTRAINT_UNIQUE
  else if user_exists st uid
  then
    let id := next_rowid (visited_seq st)
                         (map visit_id (visited_stations st)) in
    Done (mkStore (users st) (users_seq st) (sessions st)
                  (visited_stations st ++ [mkVisit id uid sid stamp])%list id)
  else Raised SQLITE_CONSTRAINT_FOREIGNKEY.

(** [DROP TABLE visited_stations] followed by [CREATE TABLE]: an empty
    table whose rowids start again. *)
Definition recreate_visited (st : Store) : Store :=
  mkStore (users st) (users_seq st) (sessions st) [] 0.

(** [oldData.forEach(row => insert.run(kartikyeId, row.station_id,
     row.visited_at || new Date().toISOString()))]: the loop stops at the
    first insert that raises, keeping what was inserted before. *)
Fixpoint migrate_rows (st : Store) (now : Z) (uid : Z)
         (old : list (string * option string)) : option SqlError * Store :=
  match old with
  | [] => (None, st)
  | (sid, stamp) :: rest =>
      let stamp' := match truthy stamp with
                    | Some s => s
                    | None => toISOString now
                    end in
      match insert_visited st uid sid stamp' with
      | Done st' => migrate_rows st' now uid rest
      | Raised e => (Some e, st)
      end
  end.

(** [initSchema]: the error it throws, if any, and the database it leaves.
    [CREATE TABLE IF NOT EXISTS users / sessions] keeps existing rows. *)
Definition initSchema (now : Z) (db : Database) : option SqlError * Database :=
  match visited_table db with
  | Absent =>
      let st := recreate_visited (tables db) in
      match select_user_by_username st "kartikye" with
      | Some _ => (None, mkDatabase st Current)
      | None =>
          match insert_user st "kartikye" "4569" with
          | Done (_, st') => (None, mkDatabase st' Current)
          | Raised e => (Some e, mkDatabase st Current)
          end
      end
  | Legacy old =>
      let st := recreate_visited (tables db) in
      match insert_user st "kartikye" "4569" with
      | Raised e => (Some e, mkDatabase st Current)
      | Done (kartikyeId, st') =>
          let '(e, st'') := migrate_rows st' now kartikyeId old in
          (e, mkDatabase st'' Current)
      end
  | Current => (None, db)
  end.

(** A database file that does not exist yet. *)
Definition empty_database : Database :=
  mkDatabase (mkStore [] 0 [] [] 0) Absent.

End Schema.

Import Schema.

(** ** More of the client (app.js) *)

Module ClientState.

(** A station of [STATIONS]; coordinates are the decimal literals of the
    data file. *)
Record Station := mkStation
  { id : string; name : string; lat : Q; lon : Q; lines : string }.

(** [s.split(' ')]. *)
Fixpoint split_space_from (cur : string) (s : string) : list string :=
  match s with
  | EmptyString => [cur]
  | String c r =>
      if Ascii.eqb c " "%char
      then cur :: split_space_from EmptyString r
      else split_space_from (cur ++ String c EmptyString) r
  end.

Definition split_space (s : string) : list string :=
  split_space_from EmptyString s.

Definition isVisited (visited : list string) (stationId : string) : bool :=
  includes visited stationId.

(** [getFilteredStations]. *)
Definition getFilteredStations (STATIONS : list Station)
           (currentLineFilter : string) : list Station :=
  if String.eqb currentLineFilter "all" then STATIONS
  else filter (fun s => includes (split_space (lines s)) currentLineFilter)
              STATIONS.

(** [new Set(xs).size]. *)
Definition set_size (xs : list string) : nat :=
  List.length (nodup string_dec xs).

(** [updateStats]: the two numbers written to the page, visited and total.
    [getComplexId] is [None] when the page defines no such function. *)
Definition updateStats (STATIONS : list Station)
           (getComplexId : option (string -> string))
           (currentLineFilter : string) (visited : list string)
  : nat * nat :=
  let filtered := getFilteredStations STATIONS currentLineFilter in
  let complex_of s := match getComplexId with
                      | Some f => f (id s)
                      | None => id s
                      end in
  let totalComplexes := map complex_of filtered in
  let visitedComplexes :=
    map complex_of (filter (fun s => isVisited visited (id s)) filtered) in
  (set_size visitedComplexes, set_size totalComplexes).

(** What a [fetch] of the visited list can bring back. *)
Inductive ListFetch :=
| ListOk (body : list string)
| ListNotOk
| ListError.

(** [loadVisitedStations]: the new mirror. *)
Definition loadVisitedStations (r : ListFetch) : list string :=
  match r with
  | ListOk body => body
  | ListNotOk => []
  | ListError => []
  end.

(** [clearAll]: [confirmed] is the answer to the dialog, [r] the end of the
    one [DELETE api/visited] issued when it is confirmed. *)
Definition clearAll (confirmed : bool) (r : FetchResult)
           (visited : list string) : list string :=
  if confirmed
  then match r with
       | ResponseOk => []
       | _ => visited
       end
  else visited.

End ClientState.

Import ClientState.

(** ** Vocabulary of the further statements *)

(** The constraints of the schema, and the lowercase form of stored
    handles. *)
Record store_ok (st : Store) : Prop := mk_store_ok
  { ok_user_ids : NoDup (map user_id (users st));
    ok_usernames : NoDup (map Db.username (users st));
    ok_lowercase :
      Forall (fun u => toLowerCase (Db.username u) = Db.username u) (users st);
    ok_session_ids : NoDup (map session_id (sessions st));
    ok_session_users :
      Forall (fun s => user_exists st (session_user_id s) = true) (sessions st);
    ok_visit_ids : NoDup (map visit_id (visited_stations st));
    ok_marks : marks_unique st;
    ok_visit_users :
      Forall (fun v => user_exists st (visit_user_id v) = true)
             (visited_stations st) }.

(** Routes that only read. *)
Definition read_only (r : Route) : bool :=
  match r with
  | GET_auth_me | GET_auth_check _ | GET_api_visited => true
  | _ => false
  end.


(** No session row carries the id [sid]. *)
Definition session_fresh (st : Store) (sid : string) : Prop :=
  forall s, In s (sessions st) -> session_id s <> sid.

(** The store after [createSession] has added its row for user [uid]. *)
Definition with_session (st : Store) (now : Z) (g : Rng) (uid : Z) : Store :=
  mkStore (users st) (users_seq st)
          (sessions st ++ [mkSession (token_of g) uid
                                     (toISOString (now + SESSION_MAX_AGE))])%list
          (visited_stations st) (visited_seq st).


Definition new_user_id (st : Store) : Z :=
  next_rowid (users_seq st) (map user_id (users st)).

Definition after_draws (g : Rng) : Rng := mkRng (draws g) (cursor g + 24)%nat.

(** The answer of a successful register or login. *)
Definition session_opened (uid : Z) (name : string) (g : Rng) : Response :=
  mkResponse 200 (JAuthSuccess uid name)
             (SetSessionCookie (token_of g) SESSION_MAX_AGE).

(** The columns of the row that the migration writes for a legacy row. *)
Definition migrated (now : Z) (uid : Z) (row : string * option string)
  : Z * string * string :=
  (uid, fst row, match truthy (snd row) with
                 | Some s => s
                 | None => toISOString now
                 end).




(** A lowercase hexadecimal digit. *)
Definition is_hex (c : ascii) : bool :=
  let n := N_of_ascii c in
  (((48 <=? n) && (n <=? 57)) || ((97 <=? n) && (n <=? 102)))%N.

(** * Properties *)

Local Open Scope list_scope.

(** ** The stable sort *)

Section StableSort.

Context {A : Type}.
Variable leb : A -> A -> bool.
Hypothesis leb_total : forall a b, leb a b = false -> leb b a = true.
Hypothesis leb_trans :
  forall a b c, leb a b = true -> leb b c = true -> leb a c = true.

Let le (a b : A) : Prop := leb a b = true.

Lemma stable_sort_snoc (l : list A) (x : A) :
  stable_sort leb (l ++ [x]) = insert_sorted leb x (stable_sort leb l).
Proof. unfold stable_sort. now rewrite fold_left_app. Qed.

Lemma insert_sorted_perm (x : A) (l : list A) :
  Permutation (insert_sorted leb x l) (x :: l).
Proof.
  induction l as [|y r IH]; simpl; auto.
  destruct (leb y x); auto.
  rewrite IH. apply perm_swap.
Qed.

Lemma stable_sort_perm (l : list A) : Permutation (stable_sort leb l) l.
Proof.
  induction l as [|x l IH] using rev_ind; [constructor|].
  rewrite stable_sort_snoc, insert_sorted_perm.
  rewrite IH. apply Permutation_cons_append.
Qed.

Lemma insert_sorted_sorted (x : A) (l : list A) :
  StronglySorted le l -> StronglySorted le (insert_sorted leb x l).
Proof.
  induction 1 as [|y r Hs IH Hall]; simpl.
  - repeat constructor.
  - destruct (leb y x) eqn:E.
    + constructor; auto.
      rewrite Forall_forall in *. intros z Hz.
      apply (Permutation_in _ (insert_sorted_perm x r)) in Hz.
      destruct Hz as [<-|Hz]; [exact E | now apply Hall].
    + assert (Hxy : le x y) by now apply leb_total.
      constructor; [constructor; auto|].
      constructor; auto.
      rewrite Forall_forall in *. intros z Hz.
      apply leb_trans with y; auto. now apply Hall.
Qed.

Lemma stable_sort_sorted (l : list A) : StronglySorted le (stable_sort leb l).
Proof.
  induction l as [|x l IH] using rev_ind; [constructor|].
  rewrite stable_sort_snoc. now apply insert_sorted_sorted.
Qed.

Lemma insert_sorted_filter (p : A -> bool) (x : A) (l : list A) :
  StronglySorted le l ->
  filter p (insert_sorted leb x l) =
  if p x then insert_sorted leb x (filter p l) else filter p l.
Proof.
  induction 1 as [|y r Hs IH Hall]; simpl.
  - now destruct (p x).
  - destruct (leb y x) eqn:E; simpl.
    + rewrite IH. destruct (p y), (p x); simpl; try rewrite E; reflexivity.
    + assert (Hhd : forall m, Forall (le y) m ->
                insert_sorted leb x (filter p m) = x :: filter p m).
      { clear -E leb_trans. induction 1 as [|z m Hz _ IHm]; simpl.
        - reflexivity.
        - destruct (p z); simpl; [|exact IHm].
          destruct (leb z x) eqn:Ez; [|reflexivity].
          assert (leb y x = true) by (apply leb_trans with z; auto).
          congruence. }
      destruct (p x); [|reflexivity].
      destruct (p y) eqn:Ey; simpl.
      * now rewrite E.
      * symmetry. now apply Hhd.
Qed.


Lemma stable_sort_filter (p : A -> bool) (l : list A) :
  filter p (stable_sort leb l) = stable_sort leb (filter p l).
Proof.
  induction l as [|x l IH] using rev_ind; [reflexivity|].
  rewrite stable_sort_snoc, insert_sorted_filter by apply stable_sort_sorted.
  rewrite filter_app; simpl. destruct (p x).
  - now rewrite stable_sort_snoc, IH.
  - now rewrite app_nil_r.
Qed.




End StableSort.

(** ** The platform primitives on known values *)

Example toISOString_epoch : toISOString 0 = "1970-01-01T00:00:00.000Z".
Proof. vm_compute. reflexivity. Qed.

Example toISOString_2026 :
  toISOString 1793650201123 = "2026-11-02T20:10:01.123Z".
Proof. vm_compute. reflexivity. Qed.

Example sqlite_datetime_leap_day :
  sqlite_datetime 1709251199999 = "2024-02-29 23:59:59".
Proof. vm_compute. reflexivity. Qed.

Example toLowerCase_mixed : toLowerCase "Kartikye_42" = "kartikye_42".
Proof. reflexivity. Qed.

Example SESSION_MAX_AGE_days : SESSION_MAX_AGE = 30 * Scenario.day.
Proof. reflexivity. Qed.

(** The separator decides the comparison of an ISO text with a
    [datetime] text of the same date. *)
Example iso_text_above_datetime_text :
  text_ltb "2026-01-31 23:59:59" "2026-01-31T00:00:00.000Z" = true.
Proof. reflexivity. Qed.

(** ** The order of TEXT values *)

Lemma string_compare_refl (s : string) : String.compare s s = Eq.
Proof.
  induction s as [|c s IH]; simpl; [reflexivity|].
  unfold Ascii.compare. now rewrite N.compare_refl.
Qed.

Lemma string_compare_trans (c : comparison) (s1 s2 s3 : string) :
  String.compare s1 s2 = c -> String.compare s2 s3 = c ->
  String.compare s1 s3 = c.
Proof.
  revert s2 s3.
  induction s1 as [|a s1 IH]; intros [|b s2] [|d s3]; simpl;
    try congruence.
  unfold Ascii.compare.
  destruct (N.compare_spec (N_of_ascii a) (N_of_ascii b)) as [E1|E1|E1];
    destruct (N.compare_spec (N_of_ascii b) (N_of_ascii d)) as [E2|E2|E2];
    destruct (N.compare_spec (N_of_ascii a) (N_of_ascii d)) as [E3|E3|E3];
    try lia; try congruence; intros; subst; try congruence.
  eapply IH; eauto.
Qed.

Lemma text_leb_total (a b : string) : text_leb a b = false -> text_leb b a = true.
Proof.
  unfold text_leb. intros E.
  destruct (String.leb_total a b) as [H|H]; congruence.
Qed.

Lemma text_leb_trans (a b c : string) :
  text_leb a b = true -> text_leb b c = true -> text_leb a c = true.
Proof.
  unfold text_leb, String.leb.
  destruct (String.compare a b) eqn:E1; try discriminate;
    destruct (String.compare b c) eqn:E2; try discriminate; intros _ _.
  - apply String.compare_eq_iff in E1. subst. now rewrite E2.
  - apply String.compare_eq_iff in E1. subst. now rewrite E2.
  - apply String.compare_eq_iff in E2. subst. now rewrite E1.
  - now rewrite (string_compare_trans Lt a b c).
Qed.


(** ** The visited list *)

Lemma visited_leb_total (a b : Visit) :
  visited_leb a b = false -> visited_leb b a = true.
Proof. apply text_leb_total. Qed.

Lemma visited_leb_trans (a b c : Visit) :
  visited_leb a b = true -> visited_leb b c = true -> visited_leb a c = true.
Proof. apply text_leb_trans. Qed.

Lemma station_leb_total (a b : Visit) :
  station_leb a b = false -> station_leb b a = true.
Proof. apply text_leb_total. Qed.

Lemma station_leb_trans (a b c : Visit) :
  station_leb a b = true -> station_leb b c = true -> station_leb a c = true.
Proof. apply text_leb_trans. Qed.

Lemma select_visited_unfold (st : Store) (uid : Z) :
  select_visited st uid =
  stable_sort visited_leb (stable_sort station_leb (rows_of st uid)).
Proof. reflexivity. Qed.

Lemma select_visited_perm (st : Store) (uid : Z) :
  Permutation (select_visited st uid) (rows_of st uid).
Proof.
  rewrite select_visited_unfold.
  now rewrite !stable_sort_perm.
Qed.


Lemma select_visited_filter (p : Visit -> bool) (st : Store) (uid : Z) :
  filter p (select_visited st uid) =
  stable_sort visited_leb (stable_sort station_leb (filter p (rows_of st uid))).
Proof.
  rewrite select_visited_unfold.
  rewrite stable_sort_filter
    by (apply visited_leb_total || apply visited_leb_trans).
  rewrite stable_sort_filter
    by (apply station_leb_total || apply station_leb_trans).
  reflexivity.
Qed.

Lemma select_visited_rows (st st' : Store) (uid : Z) :
  rows_of st' uid = rows_of st uid ->
  select_visited st' uid = select_visited st uid.
Proof. rewrite !select_visited_unfold. now intros ->. Qed.

Lemma visited_ids_spec (st : Store) (uid : Z) (s : string) :
  In s (visited_ids st uid) <-> marked st uid s.
Proof.
  unfold visited_ids, marked. rewrite in_map_iff. split.
  - intros (v & <- & Hv).
    apply (Permutation_in _ (select_visited_perm st uid)) in Hv.
    unfold rows_of in Hv. apply filter_In in Hv. destruct Hv as [Hv Ho].
    exists v. repeat split; auto. now apply Z.eqb_eq in Ho.
  - intros (v & Hv & Hu & Hs). exists v. split; auto.
    apply (Permutation_in _ (Permutation_sym (select_visited_perm st uid))).
    unfold rows_of. apply filter_In. split; auto. now apply Z.eqb_eq.
Qed.

(** ** Frame properties of the protected routes *)

Lemma getUserFromSession_frame (st st' : Store) (now : Z) (c : option string) :
  users st' = users st -> sessions st' = sessions st ->
  getUserFromSession st' now c = getUserFromSession st now c.
Proof.
  intros Hu Hs. unfold getUserFromSession, select_session_user.
  now rewrite Hu, Hs.
Qed.

Lemma select_session_user_exists (st : Store) (now : Z) (sid : string)
      (uid : Z) (name : string) :
  In (uid, name) (select_session_user st now sid) -> user_exists st uid = true.
Proof.
  unfold select_session_user, user_exists. rewrite in_flat_map.
  intros (s & _ & H).
  destruct (_ && _); [|contradiction].
  apply in_map_iff in H. destruct H as (u & E & Hu).
  apply filter_In in Hu. destruct Hu as [Hu _].
  apply existsb_exists. exists u. split; auto.
  inversion E; subst. apply Z.eqb_refl.
Qed.

Lemma getUserFromSession_exists (st : Store) (now : Z) (c : option string)
      (uid : Z) (name : string) :
  getUserFromSession st now c = Some (uid, name) -> user_exists st uid = true.
Proof.
  unfold getUserFromSession. destruct (truthy c) as [sid|]; [|discriminate].
  destruct (select_session_user st now sid) as [|x l] eqn:E; [discriminate|].
  simpl. intros [= ->]. apply select_session_user_exists with now sid name.
  rewrite E. now left.
Qed.

(** Without a resolved user a protected route answers 401 and touches
    nothing. *)
Lemma requireAuth_rejects (now : Z) (req : Request) (w : World) :
  protected (route req) = true ->
  getUserFromSession (fst w) now (session_cookie req) = None ->
  handle now req w = (unauthenticated, w).
Proof.
  destruct w as [st g]. unfold handle, requireAuth, authMiddleware. simpl.
  intros Hp ->. destruct (route req); try discriminate; reflexivity.
Qed.

Lemma handle_protected_frame (now : Z) (req : Request) (st : Store) (g : Rng) :
  protected (route req) = true ->
  let w' := snd (handle now req (st, g)) in
  users (fst w') = users st /\ sessions (fst w') = sessions st /\ snd w' = g.
Proof.
  intros Hp. unfold handle, requireAuth.
  destruct (route req); try discriminate;
    destruct (authMiddleware st now req) as [[uid name]|]; simpl; auto.
  - unfold post_visited, insert_or_replace_visited.
    destruct (user_exists st uid); simpl; auto.
Qed.

Lemma filter_other_same_mark (uid other : Z) (s : string) (l : list Visit) :
  uid <> other ->
  filter (owned_by other) (filter (fun v => negb (same_mark uid s v)) l) =
  filter (owned_by other) l.
Proof.
  intros Hne. induction l as [|v l IH]; simpl; [reflexivity|].
  unfold same_mark, owned_by in *.
  destruct (visit_user_id v =? uid) eqn:E1; simpl.
  - apply Z.eqb_eq in E1.
    destruct (visit_user_id v =? other) eqn:E2.
    + apply Z.eqb_eq in E2. congruence.
    + destruct (String.eqb (station_id v) s); simpl; rewrite ?E2; exact IH.
  - now rewrite IH.
Qed.

Lemma filter_other_owned (uid other : Z) (l : list Visit) :
  uid <> other ->
  filter (owned_by other) (filter (fun v => negb (owned_by uid v)) l) =
  filter (owned_by other) l.
Proof.
  intros Hne. induction l as [|v l IH]; simpl; [reflexivity|].
  unfold owned_by in *.
  destruct (visit_user_id v =? uid) eqn:E1; simpl.
  - apply Z.eqb_eq in E1.
    destruct (visit_user_id v =? other) eqn:E2; [|exact IH].
    apply Z.eqb_eq in E2. congruence.
  - now rewrite IH.
Qed.

(** A protected request served for [uid] leaves every other user's rows
    as they were. *)
Lemma handle_protected_rows (now : Z) (req : Request) (st : Store) (g : Rng)
      (uid other : Z) (name : string) :
  protected (route req) = true ->
  getUserFromSession st now (session_cookie req) = Some (uid, name) ->
  uid <> other ->
  rows_of (fst (snd (handle now req (st, g)))) other = rows_of st other.
Proof.
  intros Hp Hu Hne. unfold handle, requireAuth, authMiddleware. rewrite Hu.
  unfold rows_of.
  destruct (route req); try discriminate; simpl; auto.
  - unfold post_visited, insert_or_replace_visited.
    destruct (user_exists st uid); simpl; auto.
    rewrite filter_app, filter_other_same_mark by assumption. simpl.
    unfold owned_by at 2. simpl.
    destruct (uid =? other) eqn:E; [apply Z.eqb_eq in E; congruence|].
    apply app_nil_r.
  - now apply filter_other_same_mark.
  - now apply filter_other_owned.
Qed.

Lemma serve_by_user_frame (u : Z) (reqs : list (Z * Request)) :
  forall (st0 st : Store) (g : Rng),
    users st = users st0 -> sessions st = sessions st0 ->
    Forall (by_user st0 u) reqs ->
    let w' := snd (serve reqs (st, g)) in
    users (fst w') = users st0 /\ sessions (fst w') = sessions st0 /\
    forall other, u <> other -> rows_of (fst w') other = rows_of st other.
Proof.
  induction reqs as [|[now req] reqs IH]; intros st0 st g Hu Hs Hall.
  - simpl. auto.
  - inversion Hall as [|? ? [Hp [name Hn]] Hrest]; subst. simpl in Hp, Hn.
    rewrite <- (getUserFromSession_frame st0 st now _ Hu Hs) in Hn.
    cbn [serve].
    destruct (handle now req (st, g)) as [r [st1 g1]] eqn:Eh.
    pose proof (handle_protected_frame now req st g Hp) as F.
    rewrite Eh in F. cbn [fst snd] in F. destruct F as (F1 & F2 & F3).
    assert (F4 : forall other, u <> other -> rows_of st1 other = rows_of st other).
    { intros other Hne.
      pose proof (handle_protected_rows now req st g u other name Hp Hn Hne) as R.
      now rewrite Eh in R. }
    assert (E1 : users st1 = users st0) by congruence.
    assert (E2 : sessions st1 = sessions st0) by congruence.
    specialize (IH st0 st1 g1 E1 E2 Hrest).
    destruct (serve reqs (st1, g1)) as [rs w2]. cbn [fst snd] in *.
    destruct IH as (I1 & I2 & I3).
    split; [exact I1|]. split; [exact I2|].
    intros other Hne. rewrite I3, F4; auto.
Qed.

Lemma get_visited_response (st : Store) (g : Rng) (now : Z)
      (c : option string) (uid : Z) (name : string) :
  getUserFromSession st now c = Some (uid, name) ->
  handle now (mkRequest c GET_api_visited) (st, g) =
  (json 200 (JStationIds (visited_ids st uid)), (st, g)).
Proof.
  intros H. unfold handle, requireAuth, authMiddleware. simpl. now rewrite H.
Qed.

(** ** Isolation between accounts *)

(** C1: whatever sequence of list, mark, unmark and clear-all requests one
    user issues, the rows of every other user stay as they were, so the
    other user's [GET /api/visited] answers as before; the array a user
    receives holds exactly the stations of rows carrying that user's id, and
    it is a function of those rows alone. *)
Theorem visited_marks_isolated (st : Store) (g : Rng) (u other : Z)
        (reqs : list (Z * Request)) :
  u <> other ->
  Forall (by_user st u) reqs ->
  let st' := fst (snd (serve reqs (st, g))) in
  rows_of st' other = rows_of st other /\
  visited_ids st' other = visited_ids st other /\
  (forall now c name g',
      getUserFromSession st now c = Some (other, name) ->
      handle now (mkRequest c GET_api_visited) (st', g') =
      (json 200 (JStationIds (visited_ids st other)), (st', g'))) /\
  (forall uid s, In s (visited_ids st' uid) <-> marked st' uid s) /\
  (forall st2 uid, rows_of st2 uid = rows_of st' uid ->
                   visited_ids st2 uid = visited_ids st' uid).
Proof.
  intros Hne Hall.
  pose proof (serve_by_user_frame u reqs st st g eq_refl eq_refl Hall)
    as (Hu & Hs & Hrows).
  cbv zeta. set (st' := fst (snd (serve reqs (st, g)))) in *.
  assert (Hv : visited_ids st' other = visited_ids st other).
  { unfold visited_ids. f_equal. apply select_visited_rows. now apply Hrows. }
  split; [now apply Hrows|]. split; [exact Hv|]. split; [|split].
  - intros now c name g' Hc. rewrite <- Hv.
    apply get_visited_response with name.
    now rewrite (getUserFromSession_frame st st' now c Hu Hs).
  - intros uid s. apply visited_ids_spec.
  - intros st2 uid E. unfold visited_ids. f_equal.
    now apply select_visited_rows.
Qed.

Lemma visited_marks_isolated_witness :
  let reqs :=
    [(Scenario.t0 + 1000, Scenario.as_alice (POST_api_visited "A01"));
     (Scenario.t0 + 2000, Scenario.as_alice (POST_api_visited "B02"));
     (Scenario.t0 + 3000, Scenario.as_alice (DELETE_api_visited_station "B02"));
     (Scenario.t0 + 4000, Scenario.as_alice GET_api_visited);
     (Scenario.t0 + 5000, Scenario.as_alice DELETE_api_visited)] in
  let st := fst (snd (handle Scenario.t0
                             (Scenario.as_bob (POST_api_visited "A01"))
                             Scenario.world0)) in
  visited_ids (fst (snd (serve reqs (st, Scenario.rng0)))) 3 = visited_ids st 3.
Proof.
  intros reqs st.
  refine (proj1 (proj2 (visited_marks_isolated st Scenario.rng0 2 3 reqs _ _))).
  - lia.
  - repeat constructor; vm_compute; eexists; reflexivity.
Defined.

(** ** The authentication gate *)

Lemma string_compare_prefix (p a b : string) :
  String.compare (p ++ a)%string (p ++ b)%string = String.compare a b.
Proof.
  induction p as [|c p IH]; simpl; [reflexivity|].
  unfold Ascii.compare. now rewrite N.compare_refl.
Qed.

(** Throughout the UTC date of its expiry, whatever the hour, a session
    passes the test [expires_at > datetime('now')]. *)
Lemma expiry_test_same_date (now expiry : Z) :
  date_part now = date_part expiry ->
  text_ltb (sqlite_datetime now) (toISOString expiry) = true.
Proof.
  intros E. unfold text_ltb, String.ltb, sqlite_datetime, toISOString.
  rewrite E, string_compare_prefix. reflexivity.
Qed.

Lemma absent_cookie_unresolved (st : Store) (now : Z) :
  getUserFromSession st now None = None /\
  getUserFromSession st now (Some "") = None.
Proof. split; reflexivity. Qed.

Lemma unknown_session_unresolved (st : Store) (now : Z) (sid : string) :
  (forall s, In s (sessions st) -> session_id s <> sid) ->
  getUserFromSession st now (Some sid) = None.
Proof.
  intros H. unfold getUserFromSession, truthy.
  destruct (String.eqb sid ""); [reflexivity|].
  unfold select_session_user.
  induction (sessions st) as [|s l IH]; simpl; [reflexivity|].
  destruct (String.eqb_spec (session_id s) sid) as [E|E].
  - exfalso. apply (H s); [now left | exact E].
  - simpl. apply IH. intros s' Hs'. apply H. now right.
Qed.

Lemma deleted_session_unresolved (st : Store) (now : Z) (sid : string) :
  getUserFromSession (deleteSession st sid) now (Some sid) = None.
Proof.
  apply unknown_session_unresolved.
  unfold deleteSession, delete_session. simpl. intros s Hs.
  apply filter_In in Hs. destruct Hs as [_ Hs].
  apply negb_true_iff in Hs. now apply String.eqb_neq in Hs.
Qed.

(** The part of the gate that holds: an absent, unknown or deleted session
    id gets the same 401 from every protected route, and the store is not
    touched. *)
Lemma unresolved_cookie_rejected (now : Z) (r : Route) (st : Store) (g : Rng)
      (c : option string) :
  protected r = true ->
  c = None \/
  (exists sid, c = Some sid /\
               forall s, In s (sessions st) -> session_id s <> sid) ->
  handle now (mkRequest c r) (st, g) = (unauthenticated, (st, g)).
Proof.
  intros Hp Hc. apply requireAuth_rejects; [exact Hp|]. simpl.
  destruct Hc as [->|(sid & -> & Hs)].
  - reflexivity.
  - now apply unknown_session_unresolved.
Qed.

Lemma logout_then_rejected (now now' : Z) (r : Route) (w : World)
      (sid : string) :
  protected r = true ->
  let w' := snd (handle now (mkRequest (Some sid) POST_auth_logout) w) in
  handle now' (mkRequest (Some sid) r) w' = (unauthenticated, w').
Proof.
  intros Hp. destruct w as [st g]. cbv zeta.
  apply requireAuth_rejects; [exact Hp|].
  unfold handle. cbn [route session_cookie truthy snd fst].
  destruct (String.eqb_spec sid "") as [->|E]; [reflexivity|].
  apply deleted_session_unresolved.
Qed.

(** C2, at the input where the code departs from it: the session opened at
    2026-01-01T00:00:00Z expires at 2026-01-31T00:00:00Z; twelve hours
    after that instant its cookie still passes the gate, and the mark
    request it carries is executed. *)
Theorem expired_session_passes_gate :
  let now := Scenario.t0 + SESSION_MAX_AGE + 12 * Scenario.hour in
  let req := Scenario.as_alice (POST_api_visited "A01") in
  In (mkSession "0b30557a9fc4e90e33587da2c7ec11365b80a5caef14395e" 2
                (toISOString (Scenario.t0 + SESSION_MAX_AGE)))
     (sessions Scenario.store0) /\
  Scenario.alice_cookie
  = Some "0b30557a9fc4e90e33587da2c7ec11365b80a5caef14395e" /\
  Scenario.t0 + SESSION_MAX_AGE < now /\
  protected (route req) = true /\
  getUserFromSession Scenario.store0 now (session_cookie req)
  = Some (2, "alice") /\
  fst (handle now req Scenario.world0) = json 200 (JMarked "A01") /\
  visited_stations (fst (snd (handle now req Scenario.world0)))
  = [mkVisit 1 2 "A01" "2026-01-31 12:00:00"] /\
  fst (handle now req Scenario.world0) <> unauthenticated.
Proof.
  cbv zeta.
  split; [vm_compute; left; reflexivity|].
  do 6 (split; [vm_compute; reflexivity|]).
  vm_compute. discriminate.
Qed.

(** Once the UTC date has moved past the date of expiry the same cookie is
    refused. *)
Example expired_session_refused_next_day :
  handle (Scenario.t0 + SESSION_MAX_AGE + Scenario.day)
         (Scenario.as_alice (POST_api_visited "A01")) Scenario.world0
  = (unauthenticated, Scenario.world0).
Proof. vm_compute. reflexivity. Qed.

(** ** Marking *)

Lemma post_visited_resolved (st : Store) (g : Rng) (now : Z)
      (c : option string) (uid : Z) (name : string) (s : string) :
  getUserFromSession st now c = Some (uid, name) ->
  exists id,
    handle now (mkRequest c (POST_api_visited s)) (st, g) =
    (json 200 (JMarked s),
     (mkStore (users st) (users_seq st) (sessions st)
              (upsert_rows (visited_stations st) id now uid s) id, g)).
Proof.
  intros H. unfold handle, requireAuth, authMiddleware. simpl. rewrite H.
  unfold post_visited, insert_or_replace_visited.
  rewrite (getUserFromSession_exists _ _ _ _ _ H).
  eexists. reflexivity.
Qed.

Lemma same_mark_new (id now uid : Z) (s : string) :
  same_mark uid s (mkVisit id uid s (sqlite_datetime now)) = true.
Proof. unfold same_mark. simpl. now rewrite Z.eqb_refl, String.eqb_refl. Qed.

Lemma filter_negb_twice {A : Type} (p : A -> bool) (l : list A) :
  filter (fun v => negb (p v)) (filter (fun v => negb (p v)) l) =
  filter (fun v => negb (p v)) l.
Proof.
  induction l as [|v l IH]; simpl; [reflexivity|].
  destruct (p v) eqn:E; simpl; [exact IH|]. now rewrite E, IH.
Qed.

Lemma filter_filter_negb_nil {A : Type} (p : A -> bool) (l : list A) :
  filter p (filter (fun v => negb (p v)) l) = [].
Proof.
  induction l as [|v l IH]; simpl; [reflexivity|].
  destruct (p v) eqn:E; simpl; [exact IH|]. now rewrite E.
Qed.


Lemma upsert_rows_one (rows : list Visit) (id now uid : Z) (s : string) :
  List.length (filter (same_mark uid s) (upsert_rows rows id now uid s)) = 1%nat.
Proof.
  unfold upsert_rows. rewrite filter_app, filter_filter_negb_nil. simpl.
  now rewrite same_mark_new.
Qed.

Lemma same_mark_iff (uid : Z) (s : string) (v : Visit) :
  same_mark uid s v = true <-> mark_of v = (uid, s).
Proof.
  unfold same_mark, mark_of. rewrite andb_true_iff, Z.eqb_eq, String.eqb_eq.
  split; [intros [-> ->]; reflexivity | intros [= -> ->]; auto].
Qed.

(** Deleting rows keeps [UNIQUE(user_id, station_id)]. *)
Lemma marks_unique_filter (keep : Visit -> bool) (rows : list Visit) :
  NoDup (map mark_of rows) -> NoDup (map mark_of (filter keep rows)).
Proof.
  induction rows as [|v rows IH]; simpl; intros H; [constructor|].
  inversion H as [|? ? Hn Hd]; subst.
  destruct (keep v); simpl; [|now apply IH].
  constructor; [|now apply IH].
  intros Hin. apply Hn. apply in_map_iff in Hin.
  destruct Hin as (w & E & Hw). apply filter_In in Hw.
  apply in_map_iff. exists w. tauto.
Qed.

Lemma upsert_rows_unique (rows : list Visit) (id now uid : Z) (s : string) :
  NoDup (map mark_of rows) ->
  NoDup (map mark_of (upsert_rows rows id now uid s)).
Proof.
  intros H. unfold upsert_rows. rewrite map_app. simpl.
  apply NoDup_app.
  - now apply marks_unique_filter.
  - repeat constructor. intros [].
  - intros k Hk [<-|[]]. apply in_map_iff in Hk.
    destruct Hk as (w & E & Hw). apply filter_In in Hw.
    destruct Hw as [_ Hw]. apply negb_true_iff in Hw.
    change (mark_of w = (uid, s)) in E.
    apply same_mark_iff in E. congruence.
Qed.

(** The answer to [GET /api/visited] reads the columns only. *)

Section SortMap.

Context {A B : Type} (f : A -> B).
Variables (lebA : A -> A -> bool) (lebB : B -> B -> bool).
Hypothesis leb_map : forall a b, lebA a b = lebB (f a) (f b).

Lemma insert_sorted_map (x : A) (l : list A) :
  map f (insert_sorted lebA x l) = insert_sorted lebB (f x) (map f l).
Proof.
  induction l as [|y r IH]; simpl; [reflexivity|].
  rewrite <- leb_map. destruct (lebA y x); simpl; now rewrite ?IH.
Qed.

Lemma stable_sort_map (l : list A) :
  map f (stable_sort lebA l) = stable_sort lebB (map f l).
Proof.
  induction l as [|x l IH] using rev_ind; [reflexivity|].
  rewrite map_app. simpl.
  now rewrite !stable_sort_snoc, insert_sorted_map, IH.
Qed.

End SortMap.

Lemma filter_map_commute {A B : Type} (f : A -> B) (p : B -> bool)
      (l : list A) :
  map f (filter (fun a => p (f a)) l) = filter p (map f l).
Proof.
  induction l as [|x l IH]; simpl; [reflexivity|].
  destruct (p (f x)); simpl; now rewrite IH.
Qed.

Lemma visited_ids_api_view (st st' : Store) (uid : Z) :
  api_view st' = api_view st -> visited_ids st' uid = visited_ids st uid.
Proof.
  intros E.
  assert (G : forall s,
    visited_ids s uid =
    map (fun c => snd (fst c))
        (stable_sort (fun a b => text_leb (snd a) (snd b))
           (stable_sort (fun a b => text_leb (snd (fst a)) (snd (fst b)))
              (filter (fun c => fst (fst c) =? uid) (api_view s))))).
  { intros s. unfold visited_ids, api_view.
    rewrite select_visited_unfold.
    rewrite <- (filter_map_commute columns (fun c => fst (fst c) =? uid)).
    rewrite <- (stable_sort_map columns station_leb) by reflexivity.
    rewrite <- (stable_sort_map columns visited_leb) by reflexivity.
    rewrite map_map. reflexivity. }
  now rewrite !G, E.
Qed.





(** ** Session tokens *)

Lemma hex_join_length (bs : list Z) :
  String.length (hex_join bs) = (2 * List.length bs)%nat.
Proof.
  induction bs as [|b r IH]; simpl; [reflexivity|].
  rewrite IH. lia.
Qed.

Lemma random_bytes_spec (n : nat) (g : Rng) :
  random_bytes n g =
  (map (fun i => random_byte (draws g (cursor g + i)%nat)) (seq 0 n),
   mkRng (draws g) (cursor g + n)%nat).
Proof.
  revert g. induction n as [|n IH]; intros g.
  - simpl. destruct g as [d k]. simpl. now rewrite Nat.add_0_r.
  - cbn [random_bytes Math_random]. rewrite IH. cbn [draws cursor seq map].
    rewrite Nat.add_0_r. f_equal.
    + f_equal. rewrite <- seq_shift, map_map.
      apply map_ext. intros i. do 2 f_equal. lia.
    + f_equal. lia.
Qed.

Lemma generateSessionId_spec (g : Rng) :
  generateSessionId g = (token_of g, mkRng (draws g) (cursor g + 24)%nat).
Proof. unfold generateSessionId. now rewrite random_bytes_spec. Qed.

(** Two hexadecimal digits determine the byte. *)
Lemma unhex2_hex2 (b : Z) : 0 <= b < 256 -> unhex2 (hex2 b) = b.
Proof.
  intros H.
  assert (E : forallb (fun n => unhex2 (hex2 (Z.of_nat n)) =? Z.of_nat n)
                      (seq 0 256) = true) by (vm_compute; reflexivity).
  rewrite forallb_forall in E.
  specialize (E (Z.to_nat b)). rewrite Z2Nat.id in E by lia.
  apply Z.eqb_eq, E, in_seq. lia.
Qed.

Lemma random_byte_range (q : Q) : 0 <= random_byte q < 256.
Proof. unfold random_byte. apply Z.mod_pos_bound. lia. Qed.

Lemma hex_join_inj (bs bs' : list Z) :
  Forall (fun b => 0 <= b < 256) bs -> Forall (fun b => 0 <= b < 256) bs' ->
  hex_join bs = hex_join bs' -> bs = bs'.
Proof.
  intros H. revert bs'.
  induction H as [|b r Hb _ IH]; intros bs' H' E; destruct H' as [|b' r' Hb' Hr'];
    try reflexivity; try discriminate.
  cbn [hex_join hex2 append] in E. injection E as E1 E2 E3.
  f_equal; [|now apply IH].
  rewrite <- (unhex2_hex2 b Hb), <- (unhex2_hex2 b' Hb').
  unfold hex2. now rewrite E1, E2.
Qed.

(** C4, what [createSession] does: the token is the hexadecimal text of the
    next 24 bytes drawn from [Math.random] (48 characters, one token per
    byte sequence); when the user exists and the token is not yet a session
    id, the row (token, user, ISO text of now + 30 days) is added to
    [sessions] and the token is returned. *)
Theorem createSession_draws_from_Math_random (st : Store) (now : Z) (g : Rng)
        (userId : Z) :
  user_exists st userId = true ->
  (forall s, In s (sessions st) -> session_id s <> token_of g) ->
  createSession st now g userId =
  (Returns (token_of g),
   mkStore (users st) (users_seq st)
           (sessions st
            ++ [mkSession (token_of g) userId
                          (toISOString (now + 30 * 86400000))])
           (visited_stations st) (visited_seq st),
   mkRng (draws g) (cursor g + 24)%nat) /\
  String.length (token_of g) = 48%nat /\
  (forall g', token_of g' = token_of g ->
              forall i, (i < 24)%nat ->
                        random_byte (draws g' (cursor g' + i)%nat) =
                        random_byte (draws g (cursor g + i)%nat)).
Proof.
  intros Hu Hfresh. split; [|split].
  - unfold createSession. rewrite generateSessionId_spec.
    unfold insert_session. rewrite Hu.
    replace (existsb (fun s => String.eqb (session_id s) (token_of g))
                     (sessions st)) with false; [reflexivity|].
    symmetry. apply not_true_is_false. intros E.
    apply existsb_exists in E. destruct E as (s & Hs & E).
    apply String.eqb_eq in E. now apply (Hfresh s).
  - unfold token_of. now rewrite hex_join_length, length_map, length_seq.
  - intros g' E i Hi. unfold token_of in E.
    apply hex_join_inj in E;
      try (apply Forall_forall; intros b Hb; apply in_map_iff in Hb;
           destruct Hb as (j & <- & _); apply random_byte_range).
    assert (Hn : nth_error (seq 0 24) i = Some i).
    { rewrite nth_error_nth' with (d := O) by (rewrite length_seq; lia).
      now rewrite seq_nth by lia. }
    pose proof (map_nth_error
                  (fun i => random_byte (draws g' (cursor g' + i)%nat))
                  i (seq 0 24) Hn) as N1.
    pose proof (map_nth_error
                  (fun i => random_byte (draws g (cursor g + i)%nat))
                  i (seq 0 24) Hn) as N2.
    rewrite E in N1. congruence.
Qed.

Lemma createSession_draws_from_Math_random_witness :
  fst (fst (createSession Scenario.store0 Scenario.t0 (snd Scenario.world0) 3))
  = Returns (token_of (snd Scenario.world0)).
Proof.
  refine (f_equal (fun x => fst (fst x))
    (proj1 (createSession_draws_from_Math_random
              Scenario.store0 Scenario.t0 (snd Scenario.world0) 3 _ _))).
  - vm_compute. reflexivity.
  - intros s Hs.
    vm_compute in Hs.
    destruct Hs as [<-|[<-|[]]]; vm_compute; discriminate.
Defined.

(** ** Login *)

Lemma verifyUser_none (st : Store) (name p : string) :
  (forall u, In u (users st) ->
             ~ (Db.username u = toLowerCase name /\ Db.pin u = p)) ->
  verifyUser st name p = None.
Proof.
  intros H. unfold verifyUser, select_user_by_credentials.
  destruct (find _ (users st)) as [u|] eqn:E; [|reflexivity].
  apply find_some in E. destruct E as [Hu E].
  apply andb_true_iff in E. destruct E as [E1 E2].
  apply String.eqb_eq in E1, E2. exfalso. now apply (H u).
Qed.

(** C5: a login attempt that matches no (normalized handle, credential)
    pair fails with an answer that is a function of the request alone: the
    same status and the same error body whatever the store holds, be the
    handle unknown or known with another credential; nothing is written
    and no cookie is set. *)
Theorem login_failure_hides_existence (st1 st2 : Store) (now1 now2 : Z)
        (g1 g2 : Rng) (name p : string) :
  (forall u, In u (users st1) ->
             ~ (Db.username u = toLowerCase name /\ Db.pin u = p)) ->
  (forall u, In u (users st2) ->
             ~ (Db.username u = toLowerCase name /\ Db.pin u = p)) ->
  let req := mkRequest None (POST_auth_login (Some name) (Some p)) in
  exists code msg,
    handle now1 req (st1, g1) = (json code (JError msg), (st1, g1)) /\
    handle now2 req (st2, g2) = (json code (JError msg), (st2, g2)) /\
    (code = 401 \/ code = 400).
Proof.
  intros H1 H2. cbv zeta. unfold handle, login. cbn [route truthy].
  destruct (String.eqb name ""); [|destruct (String.eqb p "")];
    try (exists 400, "Username and PIN required"%string; now auto).
  rewrite (verifyUser_none st1 name p H1), (verifyUser_none st2 name p H2).
  exists 401, "Invalid username or PIN"%string. auto.
Qed.

Lemma login_failure_hides_existence_witness :
  let unknown := mkRequest None (POST_auth_login (Some "carol") (Some "1234")) in
  exists code msg,
    handle Scenario.t0 unknown (fresh_install, Scenario.rng0)
    = (json code (JError msg), (fresh_install, Scenario.rng0)) /\
    handle Scenario.t0 unknown
           (mkStore [mkUser 1 "carol" "9999"] 1 [] [] 0, Scenario.rng0)
    = (json code (JError msg),
       (mkStore [mkUser 1 "carol" "9999"] 1 [] [] 0, Scenario.rng0)) /\
    (code = 401 \/ code = 400).
Proof.
  apply (login_failure_hides_existence
           fresh_install (mkStore [mkUser 1 "carol" "9999"] 1 [] [] 0)
           Scenario.t0 Scenario.t0 Scenario.rng0 Scenario.rng0 "carol" "1234").
  - intros u [<-|[]] [E _]. vm_compute in E. discriminate.
  - intros u [<-|[]] [_ E]. vm_compute in E. discriminate.
Defined.

Example login_wrong_pin_and_unknown_handle :
  fst (handle Scenario.t0
         (mkRequest None (POST_auth_login (Some "Alice") (Some "0000")))
         Scenario.world0)
  = json 401 (JError "Invalid username or PIN") /\
  fst (handle Scenario.t0
         (mkRequest None (POST_auth_login (Some "nobody") (Some "0000")))
         Scenario.world0)
  = json 401 (JError "Invalid username or PIN").
Proof. split; vm_compute; reflexivity. Qed.

(** ** Unmarking *)

Lemma filter_keep_all {A : Type} (p : A -> bool) (l : list A) :
  filter (fun v => negb (p v)) l = l <-> filter p l = [].
Proof.
  induction l as [|v l IH]; simpl; [tauto|].
  destruct (p v) eqn:E; simpl.
  - split; [|discriminate]. intros H.
    assert (L : (List.length (filter (fun v => negb (p v)) l) <=
                 List.length l)%nat) by apply filter_length_le.
    rewrite H in L. simpl in L. lia.
  - split; intros H.
    + apply IH. now injection H.
    + f_equal. now apply IH.
Qed.

Lemma rows_of_unmark (uid : Z) (s : string) (l : list Visit) :
  filter (owned_by uid) (filter (fun v => negb (same_mark uid s v)) l) =
  filter (fun v => negb (String.eqb (station_id v) s))
         (filter (owned_by uid) l).
Proof.
  induction l as [|v l IH]; simpl; [reflexivity|].
  unfold same_mark, owned_by in *.
  destruct (visit_user_id v =? uid) eqn:E; simpl.
  - destruct (String.eqb (station_id v) s); simpl; rewrite ?E, IH; reflexivity.
  - now rewrite E, IH.
Qed.

Lemma marked_same_mark (st : Store) (uid : Z) (s : string) :
  marked st uid s <-> filter (same_mark uid s) (visited_stations st) <> [].
Proof.
  unfold marked. split.
  - intros (v & Hv & Hu & Hs) E.
    assert (Hin : In v (filter (same_mark uid s) (visited_stations st))).
    { apply filter_In. split; auto. apply same_mark_iff.
      unfold mark_of. congruence. }
    now rewrite E in Hin.
  - destruct (filter (same_mark uid s) (visited_stations st)) as [|v l] eqn:E;
      [congruence|]. intros _.
    assert (Hin : In v (filter (same_mark uid s) (visited_stations st)))
      by (rewrite E; now left).
    apply filter_In in Hin. destruct Hin as [Hv Hm].
    apply same_mark_iff in Hm. injection Hm as Hu Hs. now exists v.
Qed.

(** C6: unmarking always answers 200; the [deleted] flag is true exactly
    when the user had a mark on the station; the table loses the rows of
    that (user, station) pair and no other, so the user's visited list
    loses that station and keeps the rest in order; with nothing to delete
    the server state is left as it was. *)
Theorem unmark_reports_existence (st : Store) (g : Rng) (now : Z)
        (c : option string) (uid : Z) (name : string) (s : string) :
  getUserFromSession st now c = Some (uid, name) ->
  let out := handle now (mkRequest c (DELETE_api_visited_station s)) (st, g) in
  let st' := fst (snd out) in
  exists deleted,
    fst out = json 200 (JUnmarked s deleted) /\
    (deleted = true <-> marked st uid s) /\
    (deleted = false -> snd out = (st, g)) /\
    visited_stations st' =
      filter (fun v => negb (same_mark uid s v)) (visited_stations st) /\
    visited_ids st' uid =
      filter (fun x => negb (String.eqb x s)) (visited_ids st uid) /\
    ~ marked st' uid s /\
    users st' = users st /\ sessions st' = sessions st.
Proof.
  intros H. cbv zeta. unfold handle, requireAuth, authMiddleware. simpl. rewrite H.
  unfold delete_visited_station, delete_visited. cbn [fst snd].
  set (hits := filter (same_mark uid s) (visited_stations st)).
  exists (0 <? Z.of_nat (List.length hits)).
  assert (Hd : (0 <? Z.of_nat (List.length hits)) = true <-> hits <> []).
  { rewrite Z.ltb_lt. destruct hits; simpl; split; intros; try lia; congruence. }
  split; [reflexivity|]. split; [|split; [|split; [|split; [|split]]]].
  - rewrite Hd. symmetry. apply marked_same_mark.
  - intros E. f_equal.
    assert (Hn : hits = []).
    { destruct hits as [|v l]; [reflexivity|]. simpl in E.
      apply Z.ltb_ge in E. lia. }
    apply filter_keep_all in Hn. rewrite Hn. now destruct st.
  - reflexivity.
  - unfold visited_ids. cbn [visited_stations].
    rewrite <- (filter_map_commute station_id
                  (fun x => negb (String.eqb x s))).
    rewrite select_visited_filter, select_visited_unfold.
    unfold rows_of. cbn [visited_stations].
    now rewrite rows_of_unmark.
  - rewrite marked_same_mark. cbn [visited_stations].
    intros N. apply N. apply filter_filter_negb_nil.
  - auto.
Qed.

Lemma unmark_reports_existence_witness :
  exists deleted,
    fst (handle (Scenario.t0 + 9000)
                (Scenario.as_alice (DELETE_api_visited_station "A01"))
                Scenario.world1)
    = json 200 (JUnmarked "A01" deleted) /\
    (deleted = true <-> marked Scenario.store1 2 "A01").
Proof.
  assert (H : getUserFromSession Scenario.store1 (Scenario.t0 + 9000)
                                 Scenario.alice_cookie = Some (2, "alice"))
    by (vm_compute; reflexivity).
  destruct (unmark_reports_existence Scenario.store1 (snd Scenario.world1)
              (Scenario.t0 + 9000) Scenario.alice_cookie 2 "alice" "A01" H)
    as (d & R & M & _).
  exists d. split; [exact R | exact M].
Defined.

Example unmark_absent_then_present :
  map fst
      [handle (Scenario.t0 + 1000)
              (Scenario.as_alice (DELETE_api_visited_station "A01"))
              Scenario.world0;
       handle (Scenario.t0 + 3000)
              (Scenario.as_alice (DELETE_api_visited_station "A01"))
              (snd (handle (Scenario.t0 + 2000)
                           (Scenario.as_alice (POST_api_visited "A01"))
                           Scenario.world0))]
  = [json 200 (JUnmarked "A01" false); json 200 (JUnmarked "A01" true)].
Proof. vm_compute. reflexivity. Qed.

(** ** Registration *)


Lemma createUser_cases (st : Store) (name p : string) :
  createUser st name p =
  if name_taken st (toLowerCase name)
  then (Returns None, st)
  else
    let id := next_rowid (users_seq st) (map user_id (users st)) in
    (Returns (Some (id, toLowerCase name)),
     mkStore (users st ++ [mkUser id (toLowerCase name) p]) id
             (sessions st) (visited_stations st) (visited_seq st)).
Proof.
  unfold createUser, insert_user, name_taken.
  now destruct (existsb _ (users st)).
Qed.

Lemma open_session_users (st : Store) (now : Z) (g : Rng) (user : Z * string) :
  users (fst (snd (open_session st now g user))) = users st.
Proof.
  unfold open_session, createSession, insert_session.
  destruct (generateSessionId g) as [sid g'].
  destruct (existsb _ (sessions st)); [reflexivity|].
  destruct (user_exists st (fst user)); reflexivity.
Qed.


Lemma register_users_grow (st : Store) (now : Z) (g : Rng)
      (uname p : option string) :
  exists l, users (fst (snd (register st now g uname p))) = users st ++ l.
Proof.
  unfold register.
  destruct (truthy uname) as [name|]; [|exists []; now rewrite app_nil_r].
  destruct (truthy p) as [q|]; [|exists []; now rewrite app_nil_r].
  destruct (_ || _); [exists []; now rewrite app_nil_r|].
  destruct (negb (pin_ok q)); [exists []; now rewrite app_nil_r|].
  rewrite createUser_cases.
  destruct (name_taken st (toLowerCase name));
    [exists []; now rewrite app_nil_r|].
  cbv beta iota zeta. rewrite open_session_users. simpl. eexists. reflexivity.
Qed.








(** ** The order of the visited list *)



Example visited_in_visit_order :
  fst (serve
         [(Scenario.t0 + 1000, Scenario.as_alice (POST_api_visited "R20"));
          (Scenario.t0 + 2000, Scenario.as_alice (POST_api_visited "A01"));
          (Scenario.t0 + 3000, Scenario.as_alice (POST_api_visited "G14"));
          (Scenario.t0 + 4000, Scenario.as_alice GET_api_visited)]
         Scenario.world0)
  = [json 200 (JMarked "R20"); json 200 (JMarked "A01");
     json 200 (JMarked "G14"); json 200 (JStationIds ["R20"; "A01"; "G14"])].
Proof. vm_compute. reflexivity. Qed.

(** ** Marking again *)





(** ** The client's toggle *)















Example toggle_unmark_partial_failure :
  let complex := fun _ : string => ["A27"; "R25"; "E01"] in
  let net := fun k => match k with
                      | O => ResponseNotOk
                      | 1%nat => ResponseOk
                      | _ => NetworkError
                      end in
  toggleStation (Some complex) net ["E01"; "A27"; "Z09"; "R25"] "R25"
  = mkOutcome ["E01"; "A27"; "Z09"]
              [mkCall DELETE "A27" ResponseNotOk;
               mkCall DELETE "R25" ResponseOk;
               mkCall DELETE "E01" NetworkError]
              false.
Proof. reflexivity. Qed.

Example toggle_without_grouping :
  toggleStation None (fun _ => ResponseOk) ["Z09"] "A27"
  = mkOutcome ["Z09"; "A27"] [mkCall POST "A27" ResponseOk] true.
Proof. reflexivity. Qed.

(** ** End-to-end runs *)

(** Alice marks A01 twice, lists, clears, lists; Bob, on his own account,
    never sees her marks. *)
Example alice_and_bob_run :
  fst (serve
         [(Scenario.t0 + 1000, Scenario.as_alice (POST_api_visited "A01"));
          (Scenario.t0 + 2000, Scenario.as_alice GET_api_visited);
          (Scenario.t0 + 3000, Scenario.as_alice (POST_api_visited "A01"));
          (Scenario.t0 + 4000, Scenario.as_alice GET_api_visited);
          (Scenario.t0 + 5000, Scenario.as_bob GET_api_visited);
          (Scenario.t0 + 6000, Scenario.as_alice DELETE_api_visited);
          (Scenario.t0 + 7000, Scenario.as_alice GET_api_visited)]
         Scenario.world0)
  = [json 200 (JMarked "A01");
     json 200 (JStationIds ["A01"]);
     json 200 (JMarked "A01");
     json 200 (JStationIds ["A01"]);
     json 200 (JStationIds []);
     json 200 (JCleared 1);
     json 200 (JStationIds [])].
Proof. vm_compute. reflexivity. Qed.

(** Both accounts hold a mark on A01; Bob's clear-all removes his alone. *)
Example same_station_two_accounts :
  fst (serve
         [(Scenario.t0 + 6000, Scenario.as_bob GET_api_visited);
          (Scenario.t0 + 7000, Scenario.as_bob DELETE_api_visited);
          (Scenario.t0 + 8000, Scenario.as_bob GET_api_visited);
          (Scenario.t0 + 9000, Scenario.as_alice GET_api_visited)]
         Scenario.world1)
  = [json 200 (JStationIds ["A01"]);
     json 200 (JCleared 1);
     json 200 (JStationIds []);
     json 200 (JStationIds ["A01"; "B02"])].
Proof. vm_compute. reflexivity. Qed.

(** The health probe of the container: no cookie, 401. *)
Example health_probe :
  fst (handle Scenario.t0 (mkRequest None GET_api_visited) Scenario.world0)
  = json 401 (JError "Authentication required").
Proof. reflexivity. Qed.

(** * Further properties *)

(** ** The constraints of the schema are kept *)

Lemma fold_max_bound (ids : list Z) (i : Z) :
  In i ids -> i <= fold_right Z.max 0 ids.
Proof.
  induction ids as [|j ids IH]; simpl; [tauto|].
  intros [->|H]; [lia|]. specialize (IH H). lia.
Qed.

Lemma next_rowid_fresh (seq : Z) (ids : list Z) :
  ~ In (next_rowid seq ids) ids.
Proof.
  intros H. apply fold_max_bound in H. unfold next_rowid in H. lia.
Qed.

Lemma lower_ascii_idem (c : ascii) : lower_ascii (lower_ascii c) = lower_ascii c.
Proof.
  assert (E : forallb (fun n => Ascii.eqb
                         (lower_ascii (lower_ascii (ascii_of_nat n)))
                         (lower_ascii (ascii_of_nat n))) (seq 0 256) = true)
    by (vm_compute; reflexivity).
  rewrite forallb_forall in E.
  specialize (E (nat_of_ascii c)). rewrite ascii_nat_embedding in E.
  apply Ascii.eqb_eq, E, in_seq.
  pose proof (nat_ascii_bounded c). lia.
Qed.

Lemma toLowerCase_idem (s : string) :
  toLowerCase (toLowerCase s) = toLowerCase s.
Proof.
  induction s as [|c s IH]; simpl; [reflexivity|].
  now rewrite lower_ascii_idem, IH.
Qed.

Lemma user_exists_grows (st st' : Store) (uid : Z) (l : list User) :
  users st' = users st ++ l ->
  user_exists st uid = true -> user_exists st' uid = true.
Proof.
  unfold user_exists. intros ->. rewrite existsb_app. now intros ->.
Qed.

Lemma Forall_user_exists {A : Type} (f : A -> Z) (st st' : Store)
      (l : list User) (xs : list A) :
  users st' = users st ++ l ->
  Forall (fun x => user_exists st (f x) = true) xs ->
  Forall (fun x => user_exists st' (f x) = true) xs.
Proof.
  intros E H. eapply Forall_impl; [|exact H].
  intros x Hx. now apply (user_exists_grows st st' _ l).
Qed.

Lemma NoDup_snoc {A : Type} (l : list A) (x : A) :
  NoDup l -> ~ In x l -> NoDup (l ++ [x]).
Proof.
  intros Hl Hx. apply NoDup_app; auto.
  - repeat constructor. intros [].
  - intros y Hy [<-|[]]. contradiction.
Qed.

Lemma NoDup_map_keep {A B : Type} (f : A -> B) (keep : A -> bool)
      (xs : list A) :
  NoDup (map f xs) -> NoDup (map f (filter keep xs)).
Proof.
  induction xs as [|x xs IH]; simpl; intros H; [constructor|].
  inversion H as [|? ? Hn Hd]; subst.
  destruct (keep x); simpl; [|now apply IH].
  constructor; [|now apply IH].
  rewrite in_map_iff in *. intros (y & E & Hy).
  apply filter_In in Hy. apply Hn. exists y. tauto.
Qed.

Lemma Forall_keep {A : Type} (P : A -> Prop) (keep : A -> bool)
      (xs : list A) :
  Forall P xs -> Forall P (filter keep xs).
Proof.
  rewrite !Forall_forall. intros H x Hx. apply filter_In in Hx. now apply H.
Qed.

Lemma insert_user_keeps_ok (st st' : Store) (name p : string) (id : Z) :
  store_ok st ->
  insert_user st (toLowerCase name) p = Done (id, st') ->
  store_ok st'.
Proof.
  intros [A B C D E F G H]. unfold insert_user.
  destruct (existsb _ (users st)) eqn:Ex; [discriminate|].
  intros [= <- <-].
  assert (U : forall uid, user_exists st uid = true ->
                          user_exists
                            (mkStore (users st ++
                                      [mkUser (next_rowid (users_seq st)
                                                 (map user_id (users st)))
                                              (toLowerCase name) p])
                                     (next_rowid (users_seq st)
                                                 (map user_id (users st)))
                                     (sessions st) (visited_stations st)
                                     (visited_seq st)) uid = true).
  { intros uid. unfold user_exists. simpl. rewrite existsb_app.
    now intros ->. }
  constructor; simpl.
  - rewrite map_app. simpl. apply NoDup_snoc; [exact A|].
    apply next_rowid_fresh.
  - rewrite map_app. simpl. apply NoDup_snoc; [exact B|].
    intros Hin. apply in_map_iff in Hin. destruct Hin as (u & Eu & Hu).
    assert (T : existsb (fun u => String.eqb (Db.username u) (toLowerCase name))
                        (users st) = true).
    { apply existsb_exists. exists u. split; [exact Hu|].
      now apply String.eqb_eq. }
    congruence.
  - apply Forall_app. split; [exact C|].
    constructor; [|constructor]. simpl. apply toLowerCase_idem.
  - exact D.
  - eapply Forall_impl; [|exact E]. intros s. apply U.
  - exact F.
  - exact G.
  - eapply Forall_impl; [|exact H]. intros v. apply U.
Qed.

Lemma insert_session_keeps_ok (st st' : Store) (sid : string) (uid : Z)
      (expires : string) :
  store_ok st ->
  insert_session st sid uid expires = Done st' ->
  store_ok st'.
Proof.
  intros [A B C D E F G H]. unfold insert_session.
  destruct (existsb _ (sessions st)) eqn:Ex; [discriminate|].
  destruct (user_exists st uid) eqn:Eu; [|discriminate].
  intros [= <-]. constructor; simpl; auto.
  - rewrite map_app. simpl. apply NoDup_snoc; [exact D|].
    intros Hin. apply in_map_iff in Hin. destruct Hin as (s & Es & Hs).
    assert (T : existsb (fun s => String.eqb (session_id s) sid) (sessions st)
                = true).
    { apply existsb_exists. exists s. split; [exact Hs|].
      now apply String.eqb_eq. }
    congruence.
  - apply Forall_app. split; [exact E|]. constructor; [exact Eu|constructor].
Qed.

Lemma createSession_keeps_ok (st : Store) (now : Z) (g : Rng) (uid : Z) :
  store_ok st -> store_ok (snd (fst (createSession st now g uid))).
Proof.
  intros H. unfold createSession.
  destruct (generateSessionId g) as [sid g'].
  destruct (insert_session st sid uid _) as [st'|e] eqn:E; simpl; [|exact H].
  eapply insert_session_keeps_ok; eauto.
Qed.

Lemma open_session_keeps_ok (st : Store) (now : Z) (g : Rng)
      (user : Z * string) :
  store_ok st -> store_ok (fst (snd (open_session st now g user))).
Proof.
  intros H. unfold open_session.
  pose proof (createSession_keeps_ok st now g (fst user) H) as K.
  destruct (createSession st now g (fst user)) as [[[t|e] st'] g']; exact K.
Qed.

Lemma upsert_keeps_ok (st : Store) (now uid : Z) (s : string) :
  store_ok st -> user_exists st uid = true ->
  store_ok (mkStore (users st) (users_seq st) (sessions st)
                    (upsert_rows (visited_stations st)
                       (next_rowid (visited_seq st)
                                   (map visit_id (visited_stations st)))
                       now uid s)
                    (next_rowid (visited_seq st)
                                (map visit_id (visited_stations st)))).
Proof.
  intros [A B C D E F G H] Hu. constructor; simpl; auto.
  - unfold upsert_rows. rewrite map_app. simpl.
    apply NoDup_snoc; [now apply NoDup_map_keep|].
    intros Hin. apply in_map_iff in Hin. destruct Hin as (v & Ev & Hv).
    apply filter_In in Hv. destruct Hv as [Hv _].
    apply (next_rowid_fresh (visited_seq st) (map visit_id (visited_stations st))).
    rewrite <- Ev. now apply in_map.
  - unfold marks_unique. simpl. now apply upsert_rows_unique.
  - unfold upsert_rows. apply Forall_app. split.
    + now apply Forall_keep.
    + constructor; [exact Hu|constructor].
Qed.

Lemma keep_visits_ok (st : Store) (keep : Visit -> bool) :
  store_ok st ->
  store_ok (mkStore (users st) (users_seq st) (sessions st)
                    (filter keep (visited_stations st)) (visited_seq st)).
Proof.
  intros [A B C D E F G H]. constructor; simpl; auto.
  - now apply NoDup_map_keep.
  - unfold marks_unique. simpl. now apply NoDup_map_keep.
  - now apply Forall_keep.
Qed.

Lemma keep_sessions_ok (st : Store) (keep : Session -> bool) :
  store_ok st ->
  store_ok (mkStore (users st) (users_seq st)
                    (filter keep (sessions st))
                    (visited_stations st) (visited_seq st)).
Proof.
  intros [A B C D E F G H]. constructor; simpl; auto.
  - now apply NoDup_map_keep.
  - now apply Forall_keep.
Qed.

Lemma register_keeps_ok (st : Store) (now : Z) (g : Rng)
      (uname p : option string) :
  store_ok st -> store_ok (fst (snd (register st now g uname p))).
Proof.
  intros H. unfold register.
  destruct (truthy uname) as [name|]; [|exact H].
  destruct (truthy p) as [q|]; [|exact H].
  destruct (_ || _); [exact H|].
  destruct (negb (pin_ok q)); [exact H|].
  unfold createUser.
  destruct (insert_user st (toLowerCase name) q) as [[id st']|e] eqn:E.
  - apply open_session_keeps_ok. eapply insert_user_keeps_ok; eauto.
  - destruct e; exact H.
Qed.

Lemma login_keeps_ok (st : Store) (now : Z) (g : Rng)
      (uname p : option string) :
  store_ok st -> store_ok (fst (snd (login st now g uname p))).
Proof.
  intros H. unfold login.
  destruct (truthy uname) as [name|]; [|exact H].
  destruct (truthy p) as [q|]; [|exact H].
  destruct (verifyUser st name q); [|exact H].
  now apply open_session_keeps_ok.
Qed.

Lemma handle_keeps_ok (now : Z) (req : Request) (w : World) :
  store_ok (fst w) -> store_ok (fst (snd (handle now req w))).
Proof.
  destruct w as [st g]. cbn [fst]. intros H. unfold handle, requireAuth.
  destruct (route req).
  - destruct (authMiddleware st now req) as [[uid name]|]; exact H.
  - now apply register_keeps_ok.
  - now apply login_keeps_ok.
  - exact H.
  - cbn [fst snd]. destruct (truthy (session_cookie req)); [|exact H].
    now apply keep_sessions_ok.
  - destruct (authMiddleware st now req) as [[uid name]|]; exact H.
  - destruct (authMiddleware st now req) as [[uid name]|] eqn:Ea; [|exact H].
    unfold post_visited, insert_or_replace_visited.
    destruct (user_exists st uid) eqn:Eu; [|exact H].
    cbn [fst snd]. now apply upsert_keeps_ok.
  - destruct (authMiddleware st now req) as [[uid name]|]; [|exact H].
    cbn. now apply keep_visits_ok.
  - destruct (authMiddleware st now req) as [[uid name]|]; [|exact H].
    cbn. now apply keep_visits_ok.
Qed.

Lemma serve_keeps_ok (reqs : list (Z * Request)) :
  forall w, store_ok (fst w) -> store_ok (fst (snd (serve reqs w))).
Proof.
  induction reqs as [|[now req] reqs IH]; intros w H; [exact H|].
  cbn [serve].
  pose proof (handle_keeps_ok now req w H) as K.
  destruct (handle now req w) as [r w1]. cbn [fst snd] in K.
  specialize (IH w1 K). destruct (serve reqs w1) as [rs w2]. exact IH.
Qed.

Lemma fresh_install_ok : store_ok fresh_install.
Proof.
  constructor; simpl; repeat constructor; simpl; try tauto.
Qed.

(** X1: starting from a fresh install, whatever requests are served, the
    store satisfies the constraints of its schema: user ids, usernames,
    session ids, mark ids and (user, station) pairs are unique, every
    session and every mark belongs to an existing user, and stored
    usernames are in lowercase. *)
Theorem constraints_hold_after_any_run (reqs : list (Z * Request)) (g : Rng) :
  store_ok (fst (snd (serve reqs (fresh_install, g)))).
Proof. apply serve_keeps_ok. exact fresh_install_ok. Qed.

(** ** The expiry test *)

Lemma string_compare_same_length (a b s t : string) :
  String.length a = String.length b ->
  String.compare (a ++ s)%string (b ++ t)%string =
  match String.compare a b with
  | Eq => String.compare s t
  | c => c
  end.
Proof.
  revert b. induction a as [|x a IH]; intros [|y b]; simpl; try discriminate.
  - reflexivity.
  - intros [= L]. destruct (Ascii.compare x y); auto.
Qed.

Lemma date_part_length (ms : Z) : String.length (date_part ms) = 10%nat.
Proof.
  unfold date_part. destruct (civil_from_days (ms / ms_per_day)) as [[y m] d].
  reflexivity.
Qed.

Lemma expiry_test_same_shape (now expiry : Z) :
  text_ltb (sqlite_datetime now) (toISOString expiry) =
  text_leb (date_part now) (date_part expiry).
Proof.
  unfold text_ltb, text_leb, String.ltb, String.leb,
    sqlite_datetime, toISOString.
  rewrite string_compare_same_length
    by now rewrite !date_part_length.
  destruct (String.compare (date_part now) (date_part expiry)); reflexivity.
Qed.

(** ** Sessions: opening, resolving, closing *)

Lemma token_of_not_empty (g : Rng) : String.eqb (token_of g) "" = false.
Proof.
  apply String.eqb_neq. intros E.
  assert (L : String.length (token_of g) = 48%nat).
  { unfold token_of. now rewrite hex_join_length, length_map, length_seq. }
  rewrite E in L. discriminate.
Qed.

Lemma session_fresh_existsb (st : Store) (sid : string) :
  session_fresh st sid <->
  existsb (fun s => String.eqb (session_id s) sid) (sessions st) = false.
Proof.
  unfold session_fresh. split.
  - intros H. apply not_true_is_false. intros E.
    apply existsb_exists in E. destruct E as (s & Hs & E).
    apply String.eqb_eq in E. now apply (H s).
  - intros E s Hs Eq.
    assert (T : existsb (fun s => String.eqb (session_id s) sid) (sessions st)
                = true).
    { apply existsb_exists. exists s. split; [exact Hs|].
      now apply String.eqb_eq. }
    congruence.
Qed.

Lemma select_fresh_nil (st : Store) (now : Z) (sid : string) :
  session_fresh st sid -> select_session_user st now sid = [].
Proof.
  unfold session_fresh, select_session_user. intros H.
  induction (sessions st) as [|s l IH]; simpl; [reflexivity|].
  destruct (String.eqb_spec (session_id s) sid) as [E|E].
  - exfalso. apply (H s); [now left|exact E].
  - simpl. apply IH. intros s' Hs'. apply H. now right.
Qed.

Lemma filter_none {A : Type} (p : A -> bool) (xs : list A) :
  (forall x, In x xs -> p x = false) -> filter p xs = [].
Proof.
  induction xs as [|x xs IH]; simpl; intros H; [reflexivity|].
  rewrite (H x) by now left. apply IH. intros y Hy. apply H. now right.
Qed.

Lemma filter_user_id_unique (us : list User) (u : User) :
  NoDup (map user_id us) -> In u us ->
  filter (fun v => user_id u =? user_id v) us = [u].
Proof.
  induction us as [|v us IH]; simpl; [tauto|].
  intros N H. inversion N as [|? ? Hn Hd]; subst.
  destruct H as [->|H].
  - rewrite Z.eqb_refl. f_equal.
    apply filter_none.
    intros w Hw. apply Z.eqb_neq. intros E. apply Hn. rewrite E.
    now apply in_map.
  - destruct (user_id u =? user_id v) eqn:E.
    + apply Z.eqb_eq in E. exfalso. apply Hn. rewrite <- E. now apply in_map.
    + now apply IH.
Qed.

Lemma truthy_some (v : option string) (s : string) :
  truthy v = Some s -> v = Some s /\ s <> "".
Proof.
  destruct v as [t|]; simpl; [|discriminate].
  destruct (String.eqb_spec t ""); [discriminate|].
  intros [= <-]. auto.
Qed.

Lemma open_session_fresh (st : Store) (now : Z) (g : Rng) (uid : Z)
      (name : string) :
  user_exists st uid = true ->
  session_fresh st (token_of g) ->
  open_session st now g (uid, name) =
  (session_opened uid name g, (with_session st now g uid, after_draws g)).
Proof.
  intros Hu Hf. unfold open_session, createSession.
  rewrite generateSessionId_spec. unfold insert_session. cbn [fst snd].
  apply session_fresh_existsb in Hf. rewrite Hf, Hu. reflexivity.
Qed.

Lemma open_session_collision (st : Store) (now : Z) (g : Rng)
      (user : Z * string) :
  ~ session_fresh st (token_of g) ->
  open_session st now g user =
  (json 500 (JUncaught SQLITE_CONSTRAINT_PRIMARYKEY), (st, after_draws g)).
Proof.
  intros Hf. unfold open_session, createSession.
  rewrite generateSessionId_spec. unfold insert_session.
  destruct (existsb _ (sessions st)) eqn:E; [reflexivity|].
  exfalso. apply Hf. now apply session_fresh_existsb.
Qed.

Lemma session_fresh_dec (st : Store) (sid : string) :
  session_fresh st sid \/ ~ session_fresh st sid.
Proof.
  destruct (existsb (fun s => String.eqb (session_id s) sid) (sessions st))
    eqn:E.
  - right. intros H. apply session_fresh_existsb in H. congruence.
  - left. now apply session_fresh_existsb.
Qed.



Lemma getUserFromSession_new (st : Store) (now t : Z) (g : Rng) (u : User) :
  NoDup (map user_id (users st)) -> In u (users st) ->
  session_fresh st (token_of g) ->
  getUserFromSession (with_session st now g (user_id u)) t
                     (Some (token_of g)) =
  if text_leb (date_part t) (date_part (now + SESSION_MAX_AGE))
  then Some (user_id u, Db.username u) else None.
Proof.
  intros N Hu Hf. unfold getUserFromSession, truthy.
  rewrite token_of_not_empty.
  unfold select_session_user, with_session. cbn [sessions users].
  rewrite flat_map_app. fold (select_session_user st t (token_of g)).
  rewrite (select_fresh_nil st t (token_of g) Hf). cbn [app flat_map].
  cbn [session_id expires_at session_user_id].
  rewrite String.eqb_refl, expiry_test_same_shape. cbn [andb].
  destruct (text_leb _ _); [|reflexivity].
  rewrite (filter_user_id_unique (users st) u N Hu). reflexivity.
Qed.

Lemma getUserFromSession_other (st : Store) (now t : Z) (g : Rng) (uid : Z)
      (c : option string) :
  c <> Some (token_of g) ->
  getUserFromSession (with_session st now g uid) t c =
  getUserFromSession st t c.
Proof.
  intros Hc. unfold getUserFromSession.
  destruct (truthy c) as [sid|] eqn:E; [|reflexivity].
  apply truthy_some in E. destruct E as [-> _].
  unfold select_session_user, with_session. cbn [sessions users].
  rewrite flat_map_app. cbn [flat_map session_id].
  destruct (String.eqb_spec (token_of g) sid) as [<-|N]; [congruence|].
  cbn [andb]. now rewrite !app_nil_r.
Qed.

Lemma createSession_fresh (st : Store) (now : Z) (g : Rng) (uid : Z) :
  user_exists st uid = true -> session_fresh st (token_of g) ->
  createSession st now g uid =
  (Returns (token_of g), with_session st now g uid, after_draws g).
Proof.
  intros Hu Hf. unfold createSession. rewrite generateSessionId_spec.
  unfold insert_session. apply session_fresh_existsb in Hf.
  now rewrite Hf, Hu.
Qed.

Lemma In_user_exists (st : Store) (u : User) :
  In u (users st) -> user_exists st (user_id u) = true.
Proof.
  intros H. unfold user_exists. apply existsb_exists.
  exists u. split; [exact H | apply Z.eqb_refl].
Qed.

(** X2: a session that [createSession] has just written resolves, at any
    later clock reading, exactly when the UTC date text of the clock is not
    above that of [now + 30 days] (the time of day plays no part), and then
    to the user it was created for; every other cookie resolves as it did
    before the session was created. *)
Theorem created_session_resolves_by_date (st : Store) (now t : Z) (g : Rng)
        (u : User) :
  NoDup (map user_id (users st)) -> In u (users st) ->
  session_fresh st (token_of g) ->
  let out := createSession st now g (user_id u) in
  fst (fst out) = Returns (token_of g) /\
  getUserFromSession (snd (fst out)) t (Some (token_of g)) =
    (if text_leb (date_part t) (date_part (now + SESSION_MAX_AGE))
     then Some (user_id u, Db.username u) else None) /\
  (forall c, c <> Some (token_of g) ->
             getUserFromSession (snd (fst out)) t c =
             getUserFromSession st t c).
Proof.
  intros N Hu Hf. cbv zeta.
  rewrite (createSession_fresh st now g (user_id u))
    by (auto using In_user_exists).
  cbn [fst snd]. split; [reflexivity|]. split.
  - now apply getUserFromSession_new.
  - intros c Hc. now apply getUserFromSession_other.
Qed.

Lemma created_session_resolves_by_date_witness :
  getUserFromSession
    (snd (fst (createSession Scenario.store0 Scenario.t0
                             (snd Scenario.world0) 3)))
    (Scenario.t0 + 30 * Scenario.day + 23 * Scenario.hour)
    (Some (token_of (snd Scenario.world0)))
  = Some (3, "bob").
Proof.
  assert (N : NoDup (map user_id (users Scenario.store0))).
  { simpl. repeat (constructor; [simpl; intuition discriminate|]).
    constructor. }
  assert (Hu : In (mkUser 3 "bob" "987654") (users Scenario.store0))
    by (simpl; tauto).
  assert (Hf : session_fresh Scenario.store0 (token_of (snd Scenario.world0))).
  { intros s Hs. vm_compute in Hs.
    destruct Hs as [<-|[<-|[]]]; vm_compute; discriminate. }
  destruct (created_session_resolves_by_date Scenario.store0 Scenario.t0
              (Scenario.t0 + 30 * Scenario.day + 23 * Scenario.hour)
              (snd Scenario.world0) (mkUser 3 "bob" "987654") N Hu Hf)
    as (_ & R & _).
  exact R.
Defined.

Lemma verifyUser_some (st : Store) (name p : string) (u : User) :
  verifyUser st name p = Some u ->
  In u (users st) /\ Db.username u = toLowerCase name /\ Db.pin u = p.
Proof.
  unfold verifyUser, select_user_by_credentials. intros E.
  apply find_some in E. destruct E as [Hu E].
  apply andb_true_iff in E. destruct E as [E1 E2].
  apply String.eqb_eq in E1, E2. auto.
Qed.

Lemma me_response (st : Store) (g : Rng) (t : Z) (c : option string) :
  handle t (mkRequest c GET_auth_me) (st, g) =
  (match getUserFromSession st t c with
   | Some (uid, name) => json 200 (JUser uid name)
   | None => json 401 (JError "Not authenticated")
   end, (st, g)).
Proof.
  unfold handle, authMiddleware. cbn [route session_cookie].
  destruct (getUserFromSession st t c) as [[uid name]|]; reflexivity.
Qed.

Lemma scenario_store0_ok : store_ok Scenario.store0.
Proof.
  assert (E : Scenario.store0 =
              fst (snd (serve
                [(Scenario.t0, mkRequest None
                    (POST_auth_register (Some "Alice") (Some "1234")));
                 (Scenario.t0, mkRequest None
                    (POST_auth_register (Some "bob") (Some "987654")))]
                (fresh_install, Scenario.rng0))))
    by (vm_compute; reflexivity).
  rewrite E. apply serve_keeps_ok. exact fresh_install_ok.
Qed.

Lemma scenario_store1_ok : store_ok Scenario.store1.
Proof.
  assert (E : Scenario.store1 =
              fst (snd (serve
                [(Scenario.t0 + 1000,
                  Scenario.as_alice (POST_api_visited "B02"));
                 (Scenario.t0 + 1200,
                  Scenario.as_alice (POST_api_visited "A01"));
                 (Scenario.t0 + 5000,
                  Scenario.as_bob (POST_api_visited "A01"))]
                Scenario.world0)))
    by (vm_compute; reflexivity).
  rewrite E. apply serve_keeps_ok. exact scenario_store0_ok.
Qed.

(** X4: a login that answers 200 has matched a stored account on the
    lowercased handle and the exact PIN; it answers with that account's id
    and stored username, adds one session for it and nothing else, and
    [GET /auth/me] with the new cookie answers the same identity on every
    clock reading whose UTC date is not past the date of expiry, 401
    afterwards. *)
Theorem login_opens_session (st : Store) (now t : Z) (g : Rng)
        (name p : string) :
  store_ok st ->
  let out := login st now g (Some name) (Some p) in
  status (fst out) = 200 ->
  exists u,
    In u (users st) /\ Db.username u = toLowerCase name /\ Db.pin u = p /\
    out = (session_opened (user_id u) (Db.username u) g,
           (with_session st now g (user_id u), after_draws g)) /\
    fst (handle t (mkRequest (Some (token_of g)) GET_auth_me) (snd out)) =
      (if text_leb (date_part t) (date_part (now + SESSION_MAX_AGE))
       then json 200 (JUser (user_id u) (Db.username u))
       else json 401 (JError "Not authenticated")).
Proof.
  intros Hok. cbv zeta. unfold login.
  destruct (truthy (Some name)) as [n|] eqn:En; [|discriminate].
  destruct (truthy (Some p)) as [q|] eqn:Eq; [|discriminate].
  apply truthy_some in En, Eq. destruct En as [[= <-] _], Eq as [[= <-] _].
  destruct (verifyUser st name p) as [u|] eqn:Ev; [|discriminate].
  destruct (verifyUser_some st name p u Ev) as (Hu & Hn & Hp).
  destruct (session_fresh_dec st (token_of g)) as [F|F].
  - rewrite (open_session_fresh st now g (user_id u) (Db.username u))
      by (auto using In_user_exists).
    intros _. exists u. repeat split; auto.
    cbn [snd]. rewrite me_response. cbn [fst].
    rewrite (getUserFromSession_new st now t g u (ok_user_ids st Hok) Hu F).
    destruct (text_leb _ _); reflexivity.
  - rewrite open_session_collision by exact F. discriminate.
Qed.

Lemma login_opens_session_witness :
  fst (handle (Scenario.t0 + Scenario.day)
              (mkRequest (Some (token_of (snd Scenario.world0))) GET_auth_me)
              (snd (login Scenario.store0 Scenario.t0 (snd Scenario.world0)
                          (Some "ALICE") (Some "1234"))))
  = json 200 (JUser 2 "alice").
Proof.
  pose proof scenario_store0_ok as Hok.
  assert (S : status (fst (login Scenario.store0 Scenario.t0
                                 (snd Scenario.world0)
                                 (Some "ALICE") (Some "1234"))) = 200)
    by (vm_compute; reflexivity).
  destruct (login_opens_session Scenario.store0 Scenario.t0
              (Scenario.t0 + Scenario.day) (snd Scenario.world0)
              "ALICE" "1234" Hok S) as (u & Hu & Hn & Hp & E & M).
  rewrite M. clear E M Hp S.
  replace (text_leb (date_part (Scenario.t0 + Scenario.day))
                    (date_part (Scenario.t0 + SESSION_MAX_AGE)))
    with true by (vm_compute; reflexivity).
  assert (L : toLowerCase "ALICE" = "alice") by reflexivity.
  rewrite L in Hn. clear L.
  vm_compute in Hu.
  destruct Hu as [Hu|[Hu|[Hu|[]]]]; subst u; simpl in Hn;
    try discriminate Hn.
  reflexivity.
Defined.








(** ** Clearing, marking and unmarking *)

Lemma visited_ids_length (st : Store) (uid : Z) :
  List.length (visited_ids st uid) = List.length (rows_of st uid).
Proof.
  unfold visited_ids. rewrite length_map.
  apply Permutation_length, select_visited_perm.
Qed.

Lemma visited_ids_no_rows (st : Store) (uid : Z) :
  rows_of st uid = [] -> visited_ids st uid = [].
Proof.
  intros E. unfold visited_ids. rewrite select_visited_unfold, E. reflexivity.
Qed.

Lemma clear_resolved (st : Store) (g : Rng) (now : Z) (c : option string)
      (uid : Z) (name : string) :
  getUserFromSession st now c = Some (uid, name) ->
  handle now (mkRequest c DELETE_api_visited) (st, g) =
  (json 200 (JCleared (Z.of_nat (List.length (rows_of st uid)))),
   (mkStore (users st) (users_seq st) (sessions st)
            (filter (fun v => negb (owned_by uid v)) (visited_stations st))
            (visited_seq st), g)).
Proof.
  intros H. unfold handle, requireAuth, authMiddleware.
  cbn [route session_cookie]. rewrite H. reflexivity.
Qed.

(** X7: for an authenticated user, [DELETE /api/visited] reports as
    [deletedCount] the length of the list that user saw before, leaves that
    user's list empty, and when repeated reports 0 and changes nothing. *)
Theorem clear_all_reports_list_length (st : Store) (g : Rng) (now now' : Z)
        (c : option string) (uid : Z) (name : string) :
  getUserFromSession st now c = Some (uid, name) ->
  getUserFromSession st now' c = Some (uid, name) ->
  let req := mkRequest c DELETE_api_visited in
  let out := handle now req (st, g) in
  fst out = json 200 (JCleared (Z.of_nat (List.length (visited_ids st uid)))) /\
  visited_ids (fst (snd out)) uid = [] /\
  handle now' req (snd out) = (json 200 (JCleared 0), snd out).
Proof.
  intros H H'. cbv zeta. rewrite (clear_resolved st g now c uid name H).
  cbn [fst snd]. split; [now rewrite visited_ids_length|]. split.
  - apply visited_ids_no_rows. unfold rows_of. cbn [visited_stations].
    apply filter_filter_negb_nil.
  - set (st' := mkStore _ _ _ _ _).
    assert (H2 : getUserFromSession st' now' c = Some (uid, name))
      by now rewrite (getUserFromSession_frame st st' now' c eq_refl eq_refl).
    rewrite (clear_resolved st' g now' c uid name H2).
    unfold rows_of, st'. cbn [visited_stations users users_seq sessions
                               visited_seq].
    now rewrite filter_filter_negb_nil, filter_negb_twice.
Qed.

Lemma clear_all_reports_list_length_witness :
  fst (handle (Scenario.t0 + 9000) (Scenario.as_alice DELETE_api_visited)
              Scenario.world1)
  = json 200 (JCleared (Z.of_nat
                (List.length (visited_ids Scenario.store1 2)))).
Proof.
  assert (H : forall t, t = Scenario.t0 + 9000 \/ t = Scenario.t0 + 9500 ->
              getUserFromSession Scenario.store1 t Scenario.alice_cookie
              = Some (2, "alice"))
    by (intros t [->| ->]; vm_compute; reflexivity).
  destruct (clear_all_reports_list_length Scenario.store1
              (snd Scenario.world1) (Scenario.t0 + 9000)
              (Scenario.t0 + 9500) Scenario.alice_cookie 2 "alice"
              (H _ (or_introl eq_refl)) (H _ (or_intror eq_refl)))
    as (R & _ & _).
  exact R.
Defined.

Lemma unmark_resolved (st : Store) (g : Rng) (now : Z) (c : option string)
      (uid : Z) (name : string) (s : string) :
  getUserFromSession st now c = Some (uid, name) ->
  handle now (mkRequest c (DELETE_api_visited_station s)) (st, g) =
  (json 200 (JUnmarked s
       (0 <? Z.of_nat (List.length
                         (filter (same_mark uid s) (visited_stations st))))),
   (mkStore (users st) (users_seq st) (sessions st)
            (filter (fun v => negb (same_mark uid s v)) (visited_stations st))
            (visited_seq st), g)).
Proof.
  intros H. unfold handle, requireAuth, authMiddleware.
  cbn [route session_cookie]. rewrite H. reflexivity.
Qed.

(** X8: marking a station and then unmarking it answers [deleted: true]
    and leaves the marks table as it was, less any earlier mark of that
    user on that station; when the station was not marked before, every
    row of the table, and so every user's list, is exactly as before the
    two requests. *)
Theorem mark_then_unmark_restores (st : Store) (g : Rng) (now1 now2 : Z)
        (c : option string) (uid : Z) (name : string) (s : string) :
  getUserFromSession st now1 c = Some (uid, name) ->
  getUserFromSession st now2 c = Some (uid, name) ->
  let w1 := snd (handle now1 (mkRequest c (POST_api_visited s)) (st, g)) in
  let out := handle now2 (mkRequest c (DELETE_api_visited_station s)) w1 in
  let st2 := fst (snd out) in
  fst out = json 200 (JUnmarked s true) /\
  visited_stations st2 =
    filter (fun v => negb (same_mark uid s v)) (visited_stations st) /\
  (~ marked st uid s ->
   visited_stations st2 = visited_stations st /\
   forall u, visited_ids st2 u = visited_ids st u).
Proof.
  intros H1 H2. cbv zeta.
  destruct (post_visited_resolved st g now1 c uid name s H1) as [id E].
  rewrite E. cbn [snd].
  set (st1 := mkStore _ _ _ _ _).
  assert (H2' : getUserFromSession st1 now2 c = Some (uid, name))
    by now rewrite (getUserFromSession_frame st st1 now2 c eq_refl eq_refl).
  rewrite (unmark_resolved st1 g now2 c uid name s H2').
  unfold st1. cbn [fst snd visited_stations].
  rewrite upsert_rows_one.
  assert (V : filter (fun v => negb (same_mark uid s v))
                     (upsert_rows (visited_stations st) id now1 uid s)
              = filter (fun v => negb (same_mark uid s v))
                       (visited_stations st)).
  { unfold upsert_rows. rewrite filter_app, filter_negb_twice. simpl.
    rewrite same_mark_new. simpl. apply app_nil_r. }
  split; [reflexivity|]. split; [exact V|].
  intros Hm. rewrite V.
  assert (K : filter (fun v => negb (same_mark uid s v)) (visited_stations st)
              = visited_stations st).
  { apply filter_keep_all.
    destruct (filter (same_mark uid s) (visited_stations st)) eqn:F;
      [reflexivity|].
    exfalso. apply Hm. apply marked_same_mark. rewrite F. discriminate. }
  split; [exact K|].
  intros u. apply visited_ids_api_view. unfold api_view.
  cbn [visited_stations]. now rewrite K.
Qed.

Lemma mark_then_unmark_restores_witness :
  let w1 := snd (handle (Scenario.t0 + 9000)
                        (Scenario.as_alice (POST_api_visited "R20"))
                        Scenario.world1) in
  visited_stations
    (fst (snd (handle (Scenario.t0 + 9500)
                      (Scenario.as_alice (DELETE_api_visited_station "R20"))
                      w1)))
  = visited_stations Scenario.store1.
Proof.
  assert (H : forall t, t = Scenario.t0 + 9000 \/ t = Scenario.t0 + 9500 ->
              getUserFromSession Scenario.store1 t Scenario.alice_cookie
              = Some (2, "alice"))
    by (intros t [->| ->]; vm_compute; reflexivity).
  destruct (mark_then_unmark_restores Scenario.store1 (snd Scenario.world1)
              (Scenario.t0 + 9000) (Scenario.t0 + 9500)
              Scenario.alice_cookie 2 "alice" "R20"
              (H _ (or_introl eq_refl)) (H _ (or_intror eq_refl)))
    as (_ & _ & K).
  apply K. intros (v & Hv & Hu & Hs). vm_compute in Hv.
  destruct Hv as [<-|[<-|[<-|[]]]]; discriminate.
Defined.




Lemma filter_everything_in {A : Type} (p : A -> bool) (xs : list A) :
  (forall x, In x xs -> p x = true) -> filter p xs = xs.
Proof.
  induction xs as [|x xs IH]; simpl; intros H; [reflexivity|].
  rewrite (H x) by now left. f_equal. apply IH. intros y Hy. apply H.
  now right.
Qed.




(** ** What each route can touch *)

Lemma open_session_marks (st : Store) (now : Z) (g : Rng) (user : Z * string) :
  let st' := fst (snd (open_session st now g user)) in
  visited_stations st' = visited_stations st /\
  visited_seq st' = visited_seq st /\
  users_seq st' = users_seq st.
Proof.
  cbv zeta. unfold open_session, createSession, insert_session.
  destruct (generateSessionId g) as [sid g'].
  destruct (existsb _ (sessions st)); [auto|].
  destruct (user_exists st (fst user)); auto.
Qed.

Lemma register_marks (st : Store) (now : Z) (g : Rng) (uname p : option string) :
  let st' := fst (snd (register st now g uname p)) in
  visited_stations st' = visited_stations st /\
  visited_seq st' = visited_seq st.
Proof.
  cbv zeta. unfold register.
  destruct (truthy uname) as [h|]; [|auto].
  destruct (truthy p) as [q|]; [|auto].
  destruct (_ || _); [auto|].
  destruct (negb (pin_ok q)); [auto|].
  rewrite createUser_cases.
  destruct (name_taken st (toLowerCase h)); [auto|].
  cbv beta iota zeta.
  destruct (open_session_marks
              (mkStore (users st ++
                        [mkUser (next_rowid (users_seq st)
                                   (map user_id (users st)))
                                (toLowerCase h) q])
                       (next_rowid (users_seq st) (map user_id (users st)))
                       (sessions st) (visited_stations st) (visited_seq st))
              now g
              (next_rowid (users_seq st) (map user_id (users st)),
               toLowerCase h)) as (A & B & _).
  split; [exact A | exact B].
Qed.

Lemma login_frame (st : Store) (now : Z) (g : Rng) (uname p : option string) :
  let st' := fst (snd (login st now g uname p)) in
  users st' = users st /\ users_seq st' = users_seq st /\
  visited_stations st' = visited_stations st /\
  visited_seq st' = visited_seq st.
Proof.
  cbv zeta. unfold login.
  destruct (truthy uname) as [h|]; [|auto].
  destruct (truthy p) as [q|]; [|auto].
  destruct (verifyUser st h q) as [u|]; [|auto].
  destruct (open_session_marks st now g (user_id u, Db.username u))
    as (A & B & C).
  rewrite open_session_users. auto.
Qed.

(** X11: which part of the server state a request can change.  The three
    GET routes change nothing, whatever the cookie.  The four visited
    routes never change users, sessions or the random stream.  Register,
    login and logout never change the marks.  Only register changes the
    users table, and it only adds to it. *)
Theorem route_footprint (now : Z) (req : Request) (st : Store) (g : Rng) :
  let w' := snd (handle now req (st, g)) in
  (read_only (route req) = true -> w' = (st, g)) /\
  (protected (route req) = true ->
   users (fst w') = users st /\ users_seq (fst w') = users_seq st /\
   sessions (fst w') = sessions st /\ snd w' = g) /\
  (protected (route req) = false ->
   visited_stations (fst w') = visited_stations st /\
   visited_seq (fst w') = visited_seq st) /\
  (exists added, users (fst w') = users st ++ added /\
                 ((forall h p, route req <> POST_auth_register h p) ->
                  added = [])).
Proof.
  cbv zeta. unfold handle, requireAuth.
  destruct (route req) as [|h p|h p|n| | |s|s|] eqn:R; cbn [read_only protected].
  - destruct (authMiddleware st now req) as [[uid name]|];
      repeat split; try discriminate; auto;
      exists []; now rewrite app_nil_r.
  - repeat split; try discriminate; try apply register_marks.
    destruct (register_users_grow st now g h p) as [l El].
    exists l. split; [exact El|]. intros N. exfalso. now apply (N h p).
  - destruct (login_frame st now g h p) as (A & B & C & D).
    repeat split; try discriminate; auto.
    exists []. now rewrite app_nil_r.
  - repeat split; try discriminate; auto. exists []. now rewrite app_nil_r.
  - cbn [fst snd]. destruct (truthy (session_cookie req));
      repeat split; try discriminate; auto;
      exists []; simpl; now rewrite app_nil_r.
  - destruct (authMiddleware st now req) as [[uid name]|];
      repeat split; try discriminate; auto;
      exists []; simpl; now rewrite app_nil_r.
  - destruct (authMiddleware st now req) as [[uid name]|];
      [unfold post_visited, insert_or_replace_visited;
       destruct (user_exists st uid)|];
      repeat split; try discriminate; auto;
      exists []; simpl; now rewrite app_nil_r.
  - destruct (authMiddleware st now req) as [[uid name]|];
      repeat split; try discriminate; auto;
      exists []; simpl; now rewrite app_nil_r.
  - destruct (authMiddleware st now req) as [[uid name]|];
      repeat split; try discriminate; auto;
      exists []; simpl; now rewrite app_nil_r.
Qed.

(** ** The availability check *)




(** ** Start-up *)

Lemma initSchema_current (now : Z) (db : Database) :
  visited_table db = Current -> initSchema now db = (None, db).
Proof. unfold initSchema. now intros ->. Qed.

Lemma find_username_taken (st : Store) (name : string) :
  (match select_user_by_username st name with
   | Some _ => true
   | None => false
   end) = name_taken st name.
Proof.
  unfold select_user_by_username, name_taken.
  induction (users st) as [|u l IH]; simpl; [reflexivity|].
  destruct (String.eqb (Db.username u) name); auto.
Qed.

Lemma insert_user_cases (st : Store) (name p : string) :
  insert_user st name p =
  if name_taken st name then Raised SQLITE_CONSTRAINT_UNIQUE
  else Done (next_rowid (users_seq st) (map user_id (users st)),
             mkStore (users st ++
                      [mkUser (next_rowid (users_seq st)
                                 (map user_id (users st))) name p])
                     (next_rowid (users_seq st) (map user_id (users st)))
                     (sessions st) (visited_stations st) (visited_seq st)).
Proof. reflexivity. Qed.

Lemma migrate_rows_frame (now uid : Z) (old : list (string * option string)) :
  forall st,
    users (snd (migrate_rows st now uid old)) = users st /\
    sessions (snd (migrate_rows st now uid old)) = sessions st.
Proof.
  induction old as [|[sid stamp] old IH]; intros st; simpl; [auto|].
  unfold insert_visited.
  destruct (existsb _ (visited_stations st)); [auto|].
  destruct (user_exists st uid); [|auto].
  destruct (IH (mkStore (users st) (users_seq st) (sessions st)
                        (visited_stations st ++
                         [mkVisit (next_rowid (visited_seq st)
                                     (map visit_id (visited_stations st)))
                                  uid sid
                                  match truthy stamp with
                                  | Some s => s
                                  | None => toISOString now
                                  end])
                        (next_rowid (visited_seq st)
                                    (map visit_id (visited_stations st)))))
    as [A B].
  auto.
Qed.

(** X13: whatever [initSchema] finds, it leaves a current marks table, no
    user or session row is removed or altered, and a second start-up on
    the database it left changes nothing; on a database that already has
    the current table it changes nothing at all; and a first start-up that
    does not raise leaves an account named kartikye. *)
Theorem initSchema_settles (now now' : Z) (db : Database) :
  let out := initSchema now db in
  visited_table (snd out) = Current /\
  initSchema now' (snd out) = (None, snd out) /\
  (exists added, users (tables (snd out)) = users (tables db) ++ added) /\
  sessions (tables (snd out)) = sessions (tables db) /\
  (visited_table db = Current -> out = (None, db)) /\
  (visited_table db <> Current -> fst out = None ->
   name_taken (tables (snd out)) "kartikye" = true).
Proof.
  cbv zeta.
  assert (T : forall st, name_taken st "kartikye" = false ->
              name_taken
                (mkStore (users st ++
                          [mkUser (next_rowid (users_seq st)
                                     (map user_id (users st)))
                                  "kartikye" "4569"])
                         (next_rowid (users_seq st) (map user_id (users st)))
                         (sessions st) (visited_stations st) (visited_seq st))
                "kartikye" = true).
  { intros st _. unfold name_taken. cbn [users]. rewrite existsb_app.
    simpl. apply orb_true_r. }
  unfold initSchema. destruct (visited_table db) as [|old|] eqn:V.
  - destruct (select_user_by_username _ "kartikye") as [u|] eqn:F.
    + cbn [fst snd visited_table tables].
      split; [reflexivity|]. split; [reflexivity|].
      split; [exists []; simpl; now rewrite app_nil_r|].
      split; [reflexivity|]. split; [discriminate|].
      intros _ _. change (name_taken (recreate_visited (tables db))
                                     "kartikye" = true).
      rewrite <- find_username_taken. now rewrite F.
    + rewrite insert_user_cases.
      assert (N : name_taken (recreate_visited (tables db)) "kartikye" = false)
        by (rewrite <- find_username_taken; now rewrite F).
      rewrite N. cbn [fst snd visited_table tables].
      split; [reflexivity|]. split; [reflexivity|].
      split; [eexists; simpl; reflexivity|].
      split; [reflexivity|]. split; [discriminate|].
      intros _ _. now apply T.
  - rewrite insert_user_cases.
    destruct (name_taken (recreate_visited (tables db)) "kartikye") eqn:N.
    + cbn [fst snd visited_table tables].
      split; [reflexivity|]. split; [reflexivity|].
      split; [exists []; simpl; now rewrite app_nil_r|].
      split; [reflexivity|]. split; discriminate.
    + set (st1 := mkStore _ _ _ _ _).
      destruct (migrate_rows_frame now
                  (next_rowid (users_seq (recreate_visited (tables db)))
                     (map user_id (users (recreate_visited (tables db)))))
                  old st1) as [A B].
      destruct (migrate_rows st1 now _ old) as [e st2].
      cbn [fst snd visited_table tables] in *.
      split; [reflexivity|]. split; [reflexivity|].
      split; [eexists; rewrite A; unfold st1; simpl; reflexivity|].
      split; [rewrite B; reflexivity|]. split; [discriminate|].
      intros _ _. unfold name_taken. rewrite A. unfold st1. cbn [users].
      rewrite existsb_app. simpl. apply orb_true_r.
  - cbn [fst snd].
    split; [exact V|]. split; [unfold initSchema; now rewrite V|].
    split; [exists []; now rewrite app_nil_r|].
    split; [reflexivity|]. split; [reflexivity|]. congruence.
Qed.

Lemma migrate_rows_all (now uid : Z) (old : list (string * option string)) :
  forall st,
    user_exists st uid = true ->
    NoDup (map fst old) ->
    (forall v, In v (visited_stations st) -> ~ In (station_id v) (map fst old)) ->
    fst (migrate_rows st now uid old) = None /\
    map columns (visited_stations (snd (migrate_rows st now uid old))) =
    map columns (visited_stations st) ++ map (migrated now uid) old.
Proof.
  induction old as [|[sid stamp] old IH]; intros st Hu Hn Hfree.
  - simpl. now rewrite app_nil_r.
  - cbn [migrate_rows]. unfold insert_visited.
    replace (existsb (same_mark uid sid) (visited_stations st)) with false.
    2:{ symmetry. apply not_true_is_false. intros E.
        apply existsb_exists in E. destruct E as (v & Hv & E).
        apply same_mark_iff in E. injection E as _ Es.
        apply (Hfree v Hv). left. now rewrite Es. }
    rewrite Hu. inversion Hn as [|? ? Hsid Hrest]; subst.
    set (st1 := mkStore _ _ _ _ _).
    destruct (IH st1) as [A B]; auto.
    + unfold st1. cbn [visited_stations]. intros v Hv Hin.
      apply in_app_iff in Hv. destruct Hv as [Hv|[<-|[]]].
      * apply (Hfree v Hv). now right.
      * now apply Hsid.
    + split; [exact A|]. rewrite B. unfold st1. cbn [visited_stations].
      rewrite map_app, <- app_assoc. reflexivity.
Qed.

Lemma visited_ids_single_owner (st : Store) (uid : Z) (cols : list (Z * string * string)) :
  api_view st = cols ->
  Forall (fun c => fst (fst c) = uid) cols ->
  Permutation (visited_ids st uid) (map (fun c => snd (fst c)) cols) /\
  forall u, u <> uid -> visited_ids st u = [].
Proof.
  intros E Hall. unfold api_view in E. split.
  - unfold visited_ids. rewrite (select_visited_perm st uid). unfold rows_of.
    rewrite filter_everything_in.
    + rewrite <- E, map_map. reflexivity.
    + intros v Hv. rewrite Forall_forall in Hall.
      specialize (Hall (columns v)). rewrite <- E in Hall.
      unfold owned_by. apply Z.eqb_eq. apply Hall. now apply in_map.
  - intros u Hne. apply visited_ids_no_rows. unfold rows_of.
    apply filter_none. intros v Hv. rewrite Forall_forall in Hall.
    specialize (Hall (columns v)). rewrite <- E in Hall.
    unfold owned_by. apply Z.eqb_neq. intros Eu. apply Hne.
    rewrite <- Eu. apply Hall. now apply in_map.
Qed.

(** X14: the migration of a single-user table.  When no account named
    kartikye exists yet and the legacy table holds no station twice,
    [initSchema] does not raise, creates that account with PIN 4569, and
    writes one mark per legacy row for it, in the same order, with the
    legacy timestamp where there is one and the ISO text of the current
    time where there is none; the new account's visited list is the legacy
    stations, and every other account's list is empty. *)
Theorem migration_keeps_legacy_marks (now : Z) (db : Database)
        (old : list (string * option string)) :
  visited_table db = Legacy old ->
  name_taken (tables db) "kartikye" = false ->
  NoDup (map fst old) ->
  let out := initSchema now db in
  let st' := tables (snd out) in
  let kid := new_user_id (tables db) in
  fst out = None /\
  users st' = users (tables db) ++ [mkUser kid "kartikye" "4569"] /\
  api_view st' = map (migrated now kid) old /\
  Permutation (visited_ids st' kid) (map fst old) /\
  (forall u, u <> kid -> visited_ids st' u = []).
Proof.
  intros V Ht Hn. cbv zeta. unfold initSchema. rewrite V.
  rewrite insert_user_cases.
  change (name_taken (recreate_visited (tables db)) "kartikye")
    with (name_taken (tables db) "kartikye").
  rewrite Ht.
  change (next_rowid (users_seq (recreate_visited (tables db)))
            (map user_id (users (recreate_visited (tables db)))))
    with (new_user_id (tables db)).
  set (kid := new_user_id (tables db)).
  set (st1 := mkStore _ _ _ _ _).
  destruct (migrate_rows_all now kid old st1) as [A B].
  - unfold user_exists, st1. cbn [users]. rewrite existsb_app. simpl.
    now rewrite Z.eqb_refl, orb_true_r.
  - exact Hn.
  - unfold st1. simpl. tauto.
  - destruct (migrate_rows_frame now kid old st1) as [U _].
    destruct (migrate_rows st1 now kid old) as [e st2].
    cbn [fst snd tables] in *.
    assert (W : api_view st2 = map (migrated now kid) old) by exact B.
    destruct (visited_ids_single_owner st2 kid _ W) as [P Q].
    { apply Forall_forall. intros c Hc. apply in_map_iff in Hc.
      destruct Hc as (r & <- & _). reflexivity. }
    split; [exact A|]. split; [rewrite U; reflexivity|].
    split; [exact W|]. split; [|exact Q].
    rewrite P, map_map. apply Permutation_refl.
Qed.

Lemma migration_keeps_legacy_marks_witness :
  let db := mkDatabase (mkStore [] 0 [] [] 0)
                       (Legacy [("R20", Some "2025-03-01 10:00:00");
                                ("A01", None)]) in
  api_view (tables (snd (initSchema Scenario.t0 db)))
  = [(1, "R20", "2025-03-01 10:00:00");
     (1, "A01", "2026-01-01T00:00:00.000Z")].
Proof.
  intros db.
  destruct (migration_keeps_legacy_marks Scenario.t0 db
              [("R20", Some "2025-03-01 10:00:00"); ("A01", None)])
    as (_ & _ & W & _).
  - reflexivity.
  - reflexivity.
  - simpl. repeat (constructor; [simpl; intuition discriminate|]). constructor.
  - rewrite W. vm_compute. reflexivity.
Defined.

(** X15: the migration is not atomic.  When the legacy table is found
    while an account named kartikye already exists, [initSchema] raises on
    the insert of that account, after the legacy table has been dropped:
    the database is left with an empty current table, and the next
    start-up accepts it as it is. *)
Theorem failed_migration_drops_legacy_marks (now now' : Z) (db : Database)
        (old : list (string * option string)) :
  visited_table db = Legacy old ->
  name_taken (tables db) "kartikye" = true ->
  let out := initSchema now db in
  fst out = Some SQLITE_CONSTRAINT_UNIQUE /\
  visited_table (snd out) = Current /\
  visited_stations (tables (snd out)) = [] /\
  users (tables (snd out)) = users (tables db) /\
  initSchema now' (snd out) = (None, snd out).
Proof.
  intros V Ht. cbv zeta. unfold initSchema. rewrite V.
  rewrite insert_user_cases.
  change (name_taken (recreate_visited (tables db)) "kartikye")
    with (name_taken (tables db) "kartikye").
  rewrite Ht. cbn [fst snd visited_table tables]. auto.
Qed.

Lemma failed_migration_drops_legacy_marks_witness :
  fst (initSchema Scenario.t0
         (mkDatabase fresh_install (Legacy [("R20", None)])))
  = Some SQLITE_CONSTRAINT_UNIQUE.
Proof.
  apply (failed_migration_drops_legacy_marks Scenario.t0 Scenario.t0
           (mkDatabase fresh_install (Legacy [("R20", None)]))
           [("R20", None)]); reflexivity.
Defined.

(** ** The toggle when every call succeeds *)






(** ** The toggle against the server *)








(** ** Progress statistics *)

Lemma set_size_incl (xs ys : list string) :
  incl xs ys -> (set_size xs <= set_size ys)%nat.
Proof.
  intros H. unfold set_size. apply NoDup_incl_length.
  - apply NoDup_nodup.
  - intros x Hx. apply nodup_In. apply H. now apply nodup_In in Hx.
Qed.

(** X18: the progress counter never exceeds its total.  For any catalog,
    line filter and mirror, the visited count of [updateStats] is at most
    the total count; the total does not depend on the mirror; with an
    empty mirror the visited count is 0, and when every station of the
    filtered catalog is in the mirror the two counts are equal. *)
Theorem progress_counts_bounded (STATIONS : list Station)
        (getComplexId : option (string -> string))
        (currentLineFilter : string) (visited : list string) :
  let stats := updateStats STATIONS getComplexId currentLineFilter visited in
  (fst stats <= snd stats)%nat /\
  (forall visited',
      snd (updateStats STATIONS getComplexId currentLineFilter visited')
      = snd stats) /\
  fst (updateStats STATIONS getComplexId currentLineFilter []) = 0%nat /\
  ((forall s, In s (getFilteredStations STATIONS currentLineFilter) ->
              isVisited visited (id s) = true) ->
   fst stats = snd stats).
Proof.
  cbv zeta. unfold updateStats. cbn [fst snd].
  split; [|split; [|split]].
  - apply set_size_incl. intros x Hx. apply in_map_iff in Hx.
    destruct Hx as (s & <- & Hs). apply filter_In in Hs.
    apply in_map_iff. exists s. tauto.
  - reflexivity.
  - rewrite filter_none; [reflexivity|]. intros s _. reflexivity.
  - intros H. now rewrite filter_everything_in.
Qed.

Example updateStats_counts_complexes :
  let STATIONS :=
    [mkStation "A27" "Chambers St" (40714111 # 1000000) (-74008585 # 1000000)
               "A C";
     mkStation "E01" "World Trade Center" (40712582 # 1000000)
               (-74009781 # 1000000) "E";
     mkStation "L06" "1 Av" (40730953 # 1000000) (-73981628 # 1000000) "L"] in
  let getComplexId := fun s => if String.eqb s "E01" then "A27" else s in
  updateStats STATIONS (Some getComplexId) "all" ["E01"] = (1%nat, 2%nat) /\
  updateStats STATIONS None "all" ["E01"] = (1%nat, 3%nat) /\
  updateStats STATIONS (Some getComplexId) "C" ["E01"] = (0%nat, 1%nat).
Proof. repeat split; reflexivity. Qed.

(** ** The gate, where it holds *)




(** X20: for a request whose session resolves, each of the four visited
    routes answers 200: the foreign key of a mark is always satisfied,
    because the user id comes from the join with the users table, so the
    handlers' 500 branch is not taken. *)
Theorem resolved_requests_answer_200 (now : Z) (r : Route) (st : Store)
        (g : Rng) (c : option string) (uid : Z) (name : string) :
  protected r = true ->
  getUserFromSession st now c = Some (uid, name) ->
  status (fst (handle now (mkRequest c r) (st, g))) = 200.
Proof.
  intros Hp H. destruct r; try discriminate.
  - now rewrite (get_visited_response st g now c uid name H).
  - destruct (post_visited_resolved st g now c uid name stationId H) as [i E].
    now rewrite E.
  - now rewrite (unmark_resolved st g now c uid name stationId H).
  - now rewrite (clear_resolved st g now c uid name H).
Qed.

Lemma resolved_requests_answer_200_witness :
  status (fst (handle (Scenario.t0 + 9000)
                      (Scenario.as_bob (POST_api_visited "Q05"))
                      Scenario.world1)) = 200.
Proof.
  apply (resolved_requests_answer_200 (Scenario.t0 + 9000)
           (POST_api_visited "Q05") Scenario.store1 (snd Scenario.world1)
           Scenario.bob_cookie 3 "bob").
  - reflexivity.
  - vm_compute. reflexivity.
Defined.

(** ** The alphabet of session ids *)

Lemma hex_digit_is_hex (d : Z) : is_hex (hex_digit d) = true.
Proof.
  unfold hex_digit.
  destruct d as [|q|q]; try reflexivity.
  do 4 (destruct q as [q|q|]; try reflexivity).
Qed.

Lemma hex_join_is_hex (bs : list Z) :
  forallb is_hex (list_ascii_of_string (hex_join bs)) = true.
Proof.
  induction bs as [|b bs IH]; [reflexivity|].
  cbn [hex_join hex2 append list_ascii_of_string forallb].
  now rewrite !hex_digit_is_hex, IH.
Qed.

(** X21: every session id that [generateSessionId] returns, whatever
    [Math.random] draws, is made of exactly 48 characters, each one of
    0-9 and a-f; in particular it is never the empty string that
    [getUserFromSession] and logout treat as no cookie. *)
Theorem session_id_alphabet (g : Rng) :
  let sid := fst (generateSessionId g) in
  String.length sid = 48%nat /\
  forallb is_hex (list_ascii_of_string sid) = true /\
  truthy (Some sid) = Some sid.
Proof.
  cbv zeta. rewrite generateSessionId_spec. cbn [fst].
  split; [|split].
  - unfold token_of. now rewrite hex_join_length, length_map, length_seq.
  - apply hex_join_is_hex.
  - unfold truthy. now rewrite token_of_not_empty.
Qed.
